(** * scripts/convert_to_markdown.py: a shallow embedding

    The script collects the TypeScript sources of a project together with two
    top-level configuration files and writes them into one Markdown document.

    Modelling choices, all taken from the source and from the behaviour of the
    Python library calls it makes (POSIX flavour):

    - path strings are [string]s of 8-bit characters; [str.lower] is the ASCII
      lower-casing (characters outside [A-Z] are left alone), so the model
      covers trees whose names are ASCII;
    - a [pathlib] path is its anchor (none, ["/"] or ["//"]) and its list of
      parts, as [PurePosixPath] keeps it; name matching is case-sensitive;
    - file contents are bytes, decoded text is a list of Unicode code points;
    - the file system is a tree of directories whose listings are ordered (the
      order [os.scandir] reports); there are no symbolic links and no
      permissions; of the errors of the operating system the model has
      "no such file", "not a directory", "is a directory" and "file name too
      long" (a component over [NAME_MAX] characters);
    - [Path.exists] and [Path.is_dir] answer [False] for a missing file and
      let any other error through, as Python 3.11 has them;
    - the output handle is buffered: how many of the bytes written so far
      have reached the file is a parameter of the world ([flushed]), and all
      of them have when the handle is closed.  The statements hold for every
      value of the parameter;
    - Python exceptions are values of [exn]; a computation that may raise
      returns a [result]. *)

From Stdlib Require Import List String Ascii Strings.Byte Bool Arith.
From Stdlib Require Import ZArith NArith Lia.
From Stdlib Require Import Sorting.Sorted DecimalString.
Import ListNotations.

Local Open Scope string_scope.
Local Open Scope list_scope.

Set Warnings "-register-all".

(** ** Exceptions and results *)

Inductive exn : Type :=
| FileNotFoundError
| NotADirectoryError
| IsADirectoryError
| UnicodeDecodeError
| ValueError
| OSError.                  (* errno ENAMETOOLONG: file name too long *)

Inductive result (A : Type) : Type :=
| Ok (a : A)
| Raise (e : exn).

Arguments Ok {A} a.
Arguments Raise {A} e.

Definition bind {A B : Type} (r : result A) (k : A -> result B) : result B :=
  match r with
  | Ok a => k a
  | Raise e => Raise e
  end.

Notation "'let*' x ':=' r 'in' k" := (bind r (fun x => k))
  (at level 10, x name, r at level 100, k at level 200).

(** ** Python strings (the ASCII fragment) *)

Module PyStr.

(** [c.lower()] for one character. *)
Definition lower_ascii (c : ascii) : ascii :=
  let n := nat_of_ascii c in
  if ((65 <=? n) && (n <=? 90))%nat then ascii_of_nat (n + 32) else c.

(** [s.lower()] *)
Fixpoint lower (s : string) : string :=
  match s with
  | EmptyString => EmptyString
  | String c s' => String (lower_ascii c) (lower s')
  end.

(** [s.endswith(suf)] *)
Fixpoint drop (n : nat) (s : string) : string :=
  match n, s with
  | O, _ => s
  | S _, EmptyString => EmptyString
  | S n', String _ s' => drop n' s'
  end.

Definition endswith (s suf : string) : bool :=
  (String.length suf <=? String.length s)%nat &&
  String.eqb (drop (String.length s - String.length suf) s) suf.

(** [s.rfind(c)] for a one-character needle: the highest index at which [c]
    occurs, [-1] when it does not occur.  [rfind_from c s i last] scans [s],
    whose first character has index [i], remembering the last hit. *)
Fixpoint rfind_from (c : ascii) (s : string) (i last : Z) : Z :=
  match s with
  | EmptyString => last
  | String a s' => rfind_from c s' (i + 1)%Z (if Ascii.eqb a c then i else last)
  end.

Definition rfind (s : string) (c : ascii) : Z := rfind_from c s 0%Z (-1)%Z.

(** [s[i:]] for [0 <= i]. *)
Definition slice_from (s : string) (i : Z) : string := drop (Z.to_nat i) s.

(** [sep.join(l)] *)
Fixpoint join (sep : string) (l : list string) : string :=
  match l with
  | [] => ""
  | [x] => x
  | x :: l' => x ++ sep ++ join sep l'
  end.

(** [str(n)] for a non-negative integer. *)
Definition of_nat (n : nat) : string := NilEmpty.string_of_uint (Nat.to_uint n).

(** [a <= b] on strings: lexicographic on character codes. *)
Definition le (a b : string) : Prop := String.leb a b = true.

End PyStr.

(** ** pathlib paths *)

(** The anchor of a POSIX path.  [pathlib] keeps exactly two leading slashes
    apart from one; the kernel resolves both from the root directory. *)
Inductive Anchor : Type :=
| Relative                  (* no anchor *)
| Root                      (* "/" *)
| DoubleRoot.               (* "//" *)

Record Path : Type := mkPath {
  anchor : Anchor;
  parts : list string       (* the components after the anchor *)
}.

Definition anchor_eqb (a b : Anchor) : bool :=
  match a, b with
  | Relative, Relative | Root, Root | DoubleRoot, DoubleRoot => true
  | _, _ => false
  end.

Module PurePath.

(** [p / name] for a one-component relative [name]. *)
Definition joinpath (p : Path) (name : string) : Path :=
  mkPath (anchor p) (parts p ++ [name]).

(** [str(p)] *)
Definition str (p : Path) : string :=
  match anchor p with
  | Root => "/" ++ PyStr.join "/" (parts p)
  | DoubleRoot => "//" ++ PyStr.join "/" (parts p)
  | Relative =>
    match parts p with
    | [] => "."
    | _ => PyStr.join "/" (parts p)
    end
  end.

(** [p.name]: the final component, [""] when there is none. *)
Definition name (p : Path) : string := last (parts p) "".

(** [p.suffix]:
    [i = name.rfind('.')]; [name[i:]] if [0 < i < len(name) - 1], else [""]. *)
Definition suffix (p : Path) : string :=
  let nm := name p in
  let i := PyStr.rfind nm "."%char in
  if ((0 <? i) && (i <? Z.of_nat (String.length nm) - 1))%Z
  then PyStr.slice_from nm i
  else "".

(** [is_prefix l m] and what is left of [m] after [l]. *)
Fixpoint strip_prefix (l m : list string) : option (list string) :=
  match l, m with
  | [], _ => Some m
  | _ :: _, [] => None
  | a :: l', b :: m' => if String.eqb a b then strip_prefix l' m' else None
  end.

(** [p.relative_to(other)]: [ValueError] unless the anchors agree and the
    parts of [other] are a prefix of those of [p]. *)
Definition relative_to (p other : Path) : result Path :=
  if anchor_eqb (anchor p) (anchor other) then
    match strip_prefix (parts other) (parts p) with
    | Some rest => Ok (mkPath Relative rest)
    | None => Raise ValueError
    end
  else Raise ValueError.

End PurePath.

(** ** The language classifier *)

Definition file_language_for (path : Path) : string :=
  let suffix := PyStr.lower (PurePath.suffix path) in
  if String.eqb suffix ".toml" then "toml"
  else if String.eqb suffix ".ts" || String.eqb suffix ".tsx" then "ts"
  else "text".

(** ** Decoded text *)

(** A Python [str] holding file contents: a list of code points. *)
Definition text : Type := list N.

Module PyText.

Local Open Scope N_scope.

Definition of_string (s : string) : text :=
  map N_of_ascii (list_ascii_of_string s).

(** [c.isspace()]: the characters [str.rstrip()] removes. *)
Definition isspace (c : N) : bool :=
  ((0x09 <=? c) && (c <=? 0x0D)) || ((0x1C <=? c) && (c <=? 0x20))
  || (c =? 0x85) || (c =? 0xA0) || (c =? 0x1680)
  || ((0x2000 <=? c) && (c <=? 0x200A))
  || (c =? 0x2028) || (c =? 0x2029) || (c =? 0x202F) || (c =? 0x205F)
  || (c =? 0x3000).

(** The line boundaries of [str.splitlines()]. *)
Definition islinebreak (c : N) : bool :=
  ((0x0A <=? c) && (c <=? 0x0D)) || ((0x1C <=? c) && (c <=? 0x1E))
  || (c =? 0x85) || (c =? 0x2028) || (c =? 0x2029).

Fixpoint dropwhile (f : N -> bool) (t : text) : text :=
  match t with
  | [] => []
  | c :: t' => if f c then dropwhile f t' else t
  end.

(** [t.rstrip()]: scan back from the end over whitespace. *)
Definition rstrip (t : text) : text := rev (dropwhile isspace (rev t)).

(** [t.splitlines()]; [acc] is the current line, reversed.  A ["\r\n"]
    pair is one boundary; a final boundary opens no further line. *)
Fixpoint splitlines_from (acc t : text) : list text :=
  match t with
  | [] => match acc with [] => [] | _ => [rev acc] end
  | c :: t' =>
    if islinebreak c then
      rev acc ::
      (if c =? 0x0D then
         match t' with
         | d :: t'' => if d =? 0x0A then splitlines_from [] t''
                       else splitlines_from [] t'
         | [] => splitlines_from [] t'
         end
       else splitlines_from [] t')
    else splitlines_from (c :: acc) t'
  end.

Definition splitlines (t : text) : list text := splitlines_from [] t.

(** Reading in text mode with [newline=None]: ["\r\n"] and a lone ["\r"]
    both arrive as ["\n"]. *)
Fixpoint universal_newlines (t : text) : text :=
  match t with
  | [] => []
  | c :: t' =>
    if c =? 0x0D then
      0x0A :: match t' with
              | d :: t'' => if d =? 0x0A then universal_newlines t''
                            else universal_newlines t'
              | [] => universal_newlines t'
              end
    else c :: universal_newlines t'
  end.

End PyText.

(** ** The UTF-8 codec *)

Module Utf8.

Local Open Scope N_scope.

Definition is_cont (b : N) : bool := (0x80 <=? b) && (b <=? 0xBF).

(** The range of the second byte depends on the lead byte: this is what
    rejects overlong forms, surrogates and values above U+10FFFF. *)
Definition second_ok (b0 b1 : N) : bool :=
  if b0 =? 0xE0 then (0xA0 <=? b1) && (b1 <=? 0xBF)
  else if b0 =? 0xED then (0x80 <=? b1) && (b1 <=? 0x9F)
  else if b0 =? 0xF0 then (0x90 <=? b1) && (b1 <=? 0xBF)
  else if b0 =? 0xF4 then (0x80 <=? b1) && (b1 <=? 0x8F)
  else is_cont b1.

Definition cons_opt (c : N) (o : option text) : option text :=
  match o with
  | Some t => Some (c :: t)
  | None => None
  end.

(** [bytes.decode("utf-8")] with [errors="strict"]; [None] stands for
    [UnicodeDecodeError]. *)
Fixpoint decode_N (bs : list N) : option text :=
  match bs with
  | [] => Some []
  | b0 :: r0 =>
    if b0 <? 0x80 then cons_opt b0 (decode_N r0)
    else if (0xC2 <=? b0) && (b0 <=? 0xDF) then
      match r0 with
      | b1 :: r1 =>
        if is_cont b1
        then cons_opt ((b0 - 0xC0) * 64 + (b1 - 0x80)) (decode_N r1)
        else None
      | _ => None
      end
    else if (0xE0 <=? b0) && (b0 <=? 0xEF) then
      match r0 with
      | b1 :: b2 :: r2 =>
        if second_ok b0 b1 && is_cont b2
        then cons_opt ((b0 - 0xE0) * 4096 + (b1 - 0x80) * 64 + (b2 - 0x80))
                      (decode_N r2)
        else None
      | _ => None
      end
    else if (0xF0 <=? b0) && (b0 <=? 0xF4) then
      match r0 with
      | b1 :: b2 :: b3 :: r3 =>
        if second_ok b0 b1 && is_cont b2 && is_cont b3
        then cons_opt ((b0 - 0xF0) * 262144 + (b1 - 0x80) * 4096
                       + (b2 - 0x80) * 64 + (b3 - 0x80))
                      (decode_N r3)
        else None
      | _ => None
      end
    else None
  end.

Definition decode (bs : list byte) : option text :=
  decode_N (map Byte.to_N bs).

Definition byte_of_N (n : N) : byte :=
  match Byte.of_N n with
  | Some b => b
  | None => x00
  end.

(** [str.encode("utf-8")] of one code point (surrogates do not occur in
    decoded text nor in ASCII literals). *)
Definition encode_cp (c : N) : list N :=
  if c <? 0x80 then [c]
  else if c <? 0x800 then [0xC0 + c / 64; 0x80 + c mod 64]
  else if c <? 0x10000 then
    [0xE0 + c / 4096; 0x80 + (c / 64) mod 64; 0x80 + c mod 64]
  else
    [0xF0 + c / 262144; 0x80 + (c / 4096) mod 64;
     0x80 + (c / 64) mod 64; 0x80 + c mod 64].

Definition encode (t : text) : list byte :=
  map byte_of_N (flat_map encode_cp t).

End Utf8.

(** ** The file system *)

Inductive node : Type :=
| File (data : list byte)
| Dir (entries : list (string * node)).

Module FS.

Fixpoint find_entry (nm : string) (es : list (string * node)) : option node :=
  match es with
  | [] => None
  | (k, c) :: es' => if String.eqb k nm then Some c else find_entry nm es'
  end.

(** The node at a list of plain names below [n]. *)
Fixpoint lookup (n : node) (names : list string) : option node :=
  match names with
  | [] => Some n
  | nm :: rest =>
    match n with
    | Dir es =>
      match find_entry nm es with
      | Some c => lookup c rest
      | None => None
      end
    | File _ => None
    end
  end.

(** The longest name a directory entry can have. *)
Definition NAME_MAX : nat := 255.

(** Path resolution as the kernel does it, one component at a time from the
    directory [acc] (plain names from the root): every component is looked
    up in a directory, [".."] steps to the parent, a name longer than
    [NAME_MAX] is refused.  The last component need not exist. *)
Fixpoint canon (root : node) (acc ps : list string) : result (list string) :=
  match ps with
  | [] => Ok acc
  | p :: ps' =>
    match lookup root acc with
    | Some (Dir _) =>
      if String.eqb p ".." then canon root (removelast acc) ps'
      else if (NAME_MAX <? String.length p)%nat then Raise OSError
      else canon root (acc ++ [p]) ps'
    | Some (File _) => Raise NotADirectoryError
    | None => Raise FileNotFoundError
    end
  end.

(** Replace the entry [nm] by [f] of it, or add it at the end. *)
Fixpoint upd (nm : string) (f : option node -> node)
         (es : list (string * node)) : list (string * node) :=
  match es with
  | [] => [(nm, f None)]
  | (k, c) :: es' =>
    if String.eqb k nm then (k, f (Some c)) :: es'
    else (k, c) :: upd nm f es'
  end.

(** Create or truncate-and-fill the regular file at [names]. *)
Fixpoint set_file (names : list string) (data : list byte) (n : node) : node :=
  match names with
  | [] => File data
  | nm :: rest =>
    match n with
    | Dir es =>
      Dir (upd nm (fun o => set_file rest data
                              match o with Some c => c | None => Dir [] end)
               es)
    | File _ => n
    end
  end.

End FS.

(** ** The world the script runs in *)

Record World : Type := mkWorld {
  fs : node;                (* the root directory *)
  cwd : list string;        (* the working directory, names from the root *)
  utcnow : string;          (* [datetime.utcnow().isoformat()] *)
  stdout : list string;     (* what has been printed, one entry per [print] *)
  stderr : list string;
  flushed : list byte -> nat
    (* buffering of an open text handle: of the bytes written to it so far,
       how many the runtime has passed on to the file *)
}.

Definition set_fs (w : World) (n : node) : World :=
  mkWorld n (cwd w) (utcnow w) (stdout w) (stderr w) (flushed w).

Definition print_stdout (w : World) (msg : string) : World :=
  mkWorld (fs w) (cwd w) (utcnow w) (stdout w ++ [msg]) (stderr w) (flushed w).

Definition print_stderr (w : World) (msg : string) : World :=
  mkWorld (fs w) (cwd w) (utcnow w) (stdout w) (stderr w ++ [msg]) (flushed w).

Module PathIO.

(** [Path.cwd()] *)
Definition getcwd (w : World) : Path := mkPath Root (cwd w).

Definition abs_parts (w : World) (p : Path) : list string :=
  match anchor p with
  | Relative => cwd w ++ parts p
  | Root | DoubleRoot => parts p
  end.

Definition resolve (w : World) (p : Path) : result (list string) :=
  FS.canon (fs w) [] (abs_parts w p).

(** [os.stat(p)] *)
Definition stat (w : World) (p : Path) : result node :=
  let* c := resolve w p in
  match FS.lookup (fs w) c with
  | Some n => Ok n
  | None => Raise FileNotFoundError
  end.

(** The errors [exists] and [is_dir] take for "no": ENOENT and ENOTDIR. *)
Definition ignore_error (e : exn) : bool :=
  match e with
  | FileNotFoundError | NotADirectoryError => true
  | _ => false
  end.

(** [p.exists()]: any other error of [stat] is raised again. *)
Definition exists_ (w : World) (p : Path) : result bool :=
  match stat w p with
  | Ok _ => Ok true
  | Raise e => if ignore_error e then Ok false else Raise e
  end.

(** [p.is_dir()] *)
Definition is_dir (w : World) (p : Path) : result bool :=
  match stat w p with
  | Ok (Dir _) => Ok true
  | Ok (File _) => Ok false
  | Raise e => if ignore_error e then Ok false else Raise e
  end.

(** [p.read_text(encoding="utf-8")] *)
Definition read_text (w : World) (p : Path) : result text :=
  let* n := stat w p in
  match n with
  | Dir _ => Raise IsADirectoryError
  | File data =>
    match Utf8.decode data with
    | Some t => Ok (PyText.universal_newlines t)
    | None => Raise UnicodeDecodeError
    end
  end.

(** The names, relative to the directory [n], that
    [glob("**/*" + ext)] yields: the matching entries of the directory
    itself, then those of each subdirectory in listing order.  The pattern
    ["*" + ext] matches the names that end with [ext]. *)
Fixpoint rglob (ext : string) (n : node) : list (list string) :=
  match n with
  | File _ => []
  | Dir es =>
    map (fun e => [fst e]) (filter (fun e => PyStr.endswith (fst e) ext) es)
    ++ flat_map (fun e => map (cons (fst e)) (rglob ext (snd e))) es
  end.

(** [d.glob("**/*" + ext)] *)
Definition glob (w : World) (d : Path) (ext : string) : list Path :=
  match stat w d with
  | Ok n => map (fun rel => mkPath (anchor d) (parts d ++ rel)) (rglob ext n)
  | Raise _ => []
  end.

(** [p.open("w")]: the place of the file, created or truncated. *)
Definition open_w (w : World) (p : Path) : result (list string) :=
  let* c := resolve w p in
  match FS.lookup (fs w) c with
  | Some (Dir _) => Raise IsADirectoryError
  | _ => Ok c
  end.

End PathIO.

(** [under d rel]: the names [rel] lead from the directory [d] down to one of
    its entries, at any depth. *)
Inductive under : node -> list string -> Prop :=
| under_entry (es : list (string * node)) (nm : string) (c : node) :
    In (nm, c) es -> under (Dir es) [nm]
| under_subdir (es : list (string * node)) (nm : string) (c : node)
               (rel : list string) :
    In (nm, c) es -> under c rel -> under (Dir es) (nm :: rel).

(** ** [sorted(files, key=...)]: a stable sort on string keys *)

Section Sorted.

Variable key : Path -> string.

Fixpoint insert_by (x : Path) (l : list Path) : list Path :=
  match l with
  | [] => [x]
  | y :: l' =>
    if String.leb (key x) (key y) then x :: l else y :: insert_by x l'
  end.

Fixpoint sorted (l : list Path) : list Path :=
  match l with
  | [] => []
  | x :: l' => insert_by x (sorted l')
  end.

End Sorted.

(** ** The file locator *)

Definition sort_key (p : Path) : string := PyStr.lower (PurePath.str p).

(** The loop over the extra top-level names. *)
Fixpoint find_extras (w : World) (root : Path) (names : list string)
  : result (list Path) :=
  match names with
  | [] => Ok []
  | extra :: rest =>
    let p := PurePath.joinpath root extra in
    let* there := PathIO.exists_ w p in
    let* more := find_extras w root rest in
    Ok ((if there then [p] else []) ++ more)
  end.

(** [find_files]: the list, or the error that one of the existence checks
    raises. *)
Definition find_files (w : World) (root : Path) (skip_dot_types : bool)
  : result (list Path) :=
  let worker_dir := PurePath.joinpath (PurePath.joinpath root "worker") "src" in
  let* there := PathIO.exists_ w worker_dir in
  let* scan := (if there then PathIO.is_dir w worker_dir else Ok false) in
  let scanned :=
    if scan then
      flat_map
        (fun ext =>
           filter (fun p => negb (skip_dot_types
                                  && PyStr.endswith (PurePath.name p) ".d.ts"))
                  (PathIO.glob w worker_dir ext))
        [".ts"; ".tsx"]
    else [] in
  let* extras := find_extras w root ["wrangler.toml"; "vitest.config.ts"] in
  Ok (sorted sort_key (scanned ++ extras)).

(** ** The document writer *)

Definition nl : string := String "010"%char EmptyString.

Definition header (w : World) : text :=
  PyText.of_string
    ("# Combined source files" ++ nl ++ nl ++
     "Generated: " ++ utcnow w ++ "Z" ++ nl ++ nl).

(** The path shown in a heading:
    [path.relative_to(Path.cwd()) if path.exists() else path]. *)
Definition display_path (w : World) (path : Path) : result Path :=
  let* there := PathIO.exists_ w path in
  if there
  then PurePath.relative_to path (PathIO.getcwd w)
  else Ok path.

(** What the four last [out.write] calls of one iteration put out. *)
Definition fenced_body (content : text) : text :=
  PyText.rstrip content ++ PyText.of_string nl.

Definition section (path rel : Path) (content : text) : text :=
  PyText.of_string ("---" ++ nl ++ nl)
  ++ PyText.of_string ("## `" ++ PurePath.str rel ++ "`" ++ nl ++ nl)
  ++ PyText.of_string
       ("_Size: " ++ PyStr.of_nat (List.length (PyText.splitlines content))
        ++ " lines_  " ++ nl ++ nl)
  ++ PyText.of_string ("```" ++ file_language_for path ++ nl)
  ++ fenced_body content
  ++ PyText.of_string ("```" ++ nl ++ nl).

Definition warning (path : Path) : string :=
  "Warning: skipping non-text file " ++ PurePath.str path.

(** What the file of an open handle holds when [out] has been written to the
    handle: the bytes passed on so far, a prefix of the encoded text. *)
Definition on_disk (w : World) (out : text) : list byte :=
  let data := Utf8.encode out in
  firstn (flushed w data) data.

(** The [for path in files] loop.  [out] is what has been written so far to
    the handle that is open on the file at [place]; the world collects the
    diagnostics.  An iteration reads before it writes, so it sees the output
    file as the writes of the iterations before it have left it.  An
    exception that the loop does not catch ends it. *)
Fixpoint write_sections (w : World) (place : list string) (files : list Path)
         (out : text) : World * text * option exn :=
  match files with
  | [] => (w, out, None)
  | path :: rest =>
    let w := set_fs w (FS.set_file place (on_disk w out) (fs w)) in
    match PathIO.read_text w path with
    | Raise UnicodeDecodeError =>
      write_sections (print_stderr w (warning path)) place rest out
    | Raise e => (w, out, Some e)
    | Ok content =>
      match display_path w path with
      | Raise e => (w, out, Some e)
      | Ok rel => write_sections w place rest (out ++ section path rel content)
      end
    end
  end.

Definition done_message (out_path : Path) (files : list Path) : string :=
  "Wrote " ++ PurePath.str out_path ++ " with "
  ++ PyStr.of_nat (List.length files) ++ " files.".

(** [write_markdown]: the output file is created (or truncated) when it is
    opened; all that has been written to the handle has reached it when the
    [with] block is left, also when an exception leaves it.  The completion
    message comes after the block. *)
Definition write_markdown (w : World) (files : list Path) (out_path : Path)
  : World * option exn :=
  let hd := header w in
  match PathIO.open_w w out_path with
  | Raise e => (w, Some e)
  | Ok place =>
    let w1 := set_fs w (FS.set_file place [] (fs w)) in
    let '(w2, out, e) := write_sections w1 place files hd in
    let w3 := set_fs w2 (FS.set_file place (Utf8.encode out) (fs w2)) in
    match e with
    | Some e => (w3, Some e)
    | None => (print_stdout w3 (done_message out_path files), None)
    end
  end.

(** ** The entry point *)

(** The namespace [parser.parse_args] returns. *)
Record Namespace : Type := mkNamespace {
  root : Path;
  output : Path;
  skip_dot_types : bool
}.

(** [main] after argument parsing: the exit status, or the exception that
    ends the process. *)
Definition main (w : World) (args : Namespace) : World * result Z :=
  match find_files w (root args) (skip_dot_types args) with
  | Raise e => (w, Raise e)
  | Ok [] => (print_stderr w "No files found to include.", Ok 2%Z)
  | Ok files =>
    match write_markdown w files (output args) with
    | (w', Some e) => (w', Raise e)
    | (w', None) => (w', Ok 0%Z)
    end
  end.

(** ** Vocabulary for the statements *)

(** [read_text] raises [UnicodeDecodeError] on this path. *)
Definition decode_fails (w : World) (path : Path) : bool :=
  match PathIO.read_text w path with
  | Raise UnicodeDecodeError => true
  | _ => false
  end.

(** What the document has to show for a file that can be read and shown, in
    the words of the format: a rule, the heading with the display path in
    back quotes, the line count in italics, and the fenced block, tagged with
    the language, that holds the content without its trailing white space.
    Nothing for a file that cannot be read or shown. *)
Definition expected_section (w : World) (path : Path) : text :=
  match PathIO.read_text w path, display_path w path with
  | Ok content, Ok rel =>
    PyText.of_string
      ("---" ++ nl ++ nl
       ++ "## `" ++ PurePath.str rel ++ "`" ++ nl ++ nl
       ++ "_Size: " ++ PyStr.of_nat (List.length (PyText.splitlines content))
       ++ " lines_  " ++ nl ++ nl
       ++ "```" ++ file_language_for path ++ nl)
    ++ PyText.rstrip content
    ++ PyText.of_string (nl ++ "```" ++ nl ++ nl)
  | _, _ => []
  end.

(** [stat] succeeds on this path: what [exists] answers when it answers. *)
Definition is_present (w : World) (p : Path) : bool :=
  match PathIO.stat w p with
  | Ok _ => true
  | Raise _ => false
  end.

(** [stat] finds a directory: what [is_dir] answers when it answers. *)
Definition is_present_dir (w : World) (p : Path) : bool :=
  match PathIO.stat w p with
  | Ok (Dir _) => true
  | _ => false
  end.

(** The extras that exist, in the order of the result, or the error of the
    first existence check that raises (the checks are made for
    [wrangler.toml] first). *)
Definition existing_extras (w : World) (root : Path) : result (list Path) :=
  let wrangler := PurePath.joinpath root "wrangler.toml" in
  let vitest := PurePath.joinpath root "vitest.config.ts" in
  let* has_wrangler := PathIO.exists_ w wrangler in
  let* has_vitest := PathIO.exists_ w vitest in
  Ok ((if has_vitest then [vitest] else [])
      ++ (if has_wrangler then [wrangler] else [])).

(** The content "has no trailing blank lines": its last line, when there is
    one, is not blank (empty or made of white space only). *)
Definition no_trailing_blank_lines (content : text) : bool :=
  match rev (PyText.splitlines content) with
  | [] => true
  | line :: _ => negb (forallb PyText.isspace line)
  end.

(** The content has no trailing white space: it is empty or its last
    character is not white space. *)
Definition no_trailing_whitespace (content : text) : bool :=
  match rev content with
  | [] => true
  | c :: _ => negb (PyText.isspace c)
  end.

(** The list [find_files] has built when it reaches [sorted], in a run in
    which no check raises: the scan results for the two patterns, then the
    extras. *)
Definition candidates (w : World) (root : Path) (skip_dot_types : bool)
  : list Path :=
  let worker_dir := PurePath.joinpath (PurePath.joinpath root "worker") "src" in
  (if is_present w worker_dir && is_present_dir w worker_dir then
     flat_map
       (fun ext =>
          filter (fun p => negb (skip_dot_types
                                 && PyStr.endswith (PurePath.name p) ".d.ts"))
                 (PathIO.glob w worker_dir ext))
       [".ts"; ".tsx"]
   else [])
  ++ flat_map
       (fun extra =>
          let p := PurePath.joinpath root extra in
          if is_present w p then [p] else [])
       ["wrangler.toml"; "vitest.config.ts"].

(** A directory tree as a file system has it: the names in a directory are
    distinct, and none of them is [".."]. *)
Inductive wf_node : node -> Prop :=
| wf_file (data : list byte) : wf_node (File data)
| wf_dir (es : list (string * node)) :
    NoDup (map fst es) ->
    (forall nm c, In (nm, c) es -> nm <> "..") ->
    (forall nm c, In (nm, c) es -> wf_node c) ->
    wf_node (Dir es).

(** ** A sample project *)

Module Sample.

Definition bytes (s : string) : list byte := list_byte_of_string s.

(** [/home/u/proj] is a project with sources, a declaration file and a
    binary file; [/home/u/conf] has the configuration file only;
    [/home/u/empty] has nothing. *)
Definition src_dir : node :=
  Dir [("index.ts", File (bytes ("a" ++ nl ++ "b  " ++ nl ++ nl)));
       ("env.d.ts", File (bytes "declare const x: number;"));
       ("logo.ts", File [xff; x00]);
       ("lib", Dir [("Util.tsx", File (bytes "x "))])].

Definition tree : node :=
  Dir [("home", Dir [("u", Dir [
    ("proj", Dir [
       ("wrangler.toml", File (bytes "name = 1"));
       ("worker", Dir [("src", src_dir)]);
       ("vitest.config.ts", File (bytes "cfg"))]);
    ("conf", Dir [("wrangler.toml", File (bytes "name = 2"))]);
    ("empty", Dir [])])])].

Definition proj : Path := mkPath Root ["home"; "u"; "proj"].
Definition conf : Path := mkPath Root ["home"; "u"; "conf"].
Definition empty : Path := mkPath Root ["home"; "u"; "empty"].
Definition here : Path := mkPath Relative [].

(** A name of 300 characters, more than a directory entry can have. *)
Definition long_name : string :=
  string_of_list_ascii (List.repeat "a"%char 300).
Definition out_md : Path := mkPath Relative ["out.md"].

(** A handle that passes on whole blocks of 8192 bytes. *)
Definition in_blocks (data : list byte) : nat :=
  N.to_nat (8192 * (N.of_nat (List.length data) / 8192)).

(** A handle that keeps nothing back. *)
Definition unbuffered (data : list byte) : nat := List.length data.

(** The process runs in [/home/u/proj]. *)
Definition world : World :=
  mkWorld tree ["home"; "u"; "proj"] "2024-01-01T00:00:00" [] [] in_blocks.

(** The content of the regular file at [place], as a string. *)
Definition file_string (w : World) (place : list string) : option string :=
  match FS.lookup (fs w) place with
  | Some (File data) => Some (string_of_list_byte data)
  | _ => None
  end.

(** The same tree later on, after some output. *)
Definition world_later : World :=
  mkWorld tree ["home"; "u"; "proj"] "2024-06-30T12:00:00"
          ["Wrote out.md with 5 files."] [] unbuffered.

End Sample.

(** ** A tree with edge cases *)

Module Edge.

(** [/repo/worker/src] holds two names that differ in case only, a hidden
    file named [.ts], a directory whose name ends with [.ts], and a file
    made of blanks. *)
Definition src_dir : node :=
  Dir [("a.ts", File (Sample.bytes "lower"));
       ("A.ts", File (Sample.bytes "upper"));
       (".ts", File (Sample.bytes "hidden"));
       ("gen.ts", Dir [("out.js", File (Sample.bytes "js"))]);
       ("z.ts", File (Sample.bytes ("  " ++ nl)))].

(** In [/flat] the name [worker/src] is taken by a regular file. *)
Definition tree : node :=
  Dir [("repo", Dir [("worker", Dir [("src", src_dir)])]);
       ("flat", Dir [("worker", Dir [("src", File (Sample.bytes "x"))]);
                     ("wrangler.toml", File (Sample.bytes "name = 3"))])].

Definition repo : Path := mkPath Root ["repo"].
Definition flat : Path := mkPath Root ["flat"].

Definition world : World :=
  mkWorld tree ["repo"] "2024-01-01T00:00:00" [] [] Sample.in_blocks.

Definition in_src (nm : string) : Path :=
  mkPath Root ["repo"; "worker"; "src"; nm].

End Edge.

(** ** Runs that a skipped file does not save *)

Module Partial.

(** In [/w] the first source does not decode, the second name is a directory
    and the third is a good file.  In [/v] the test configuration does not
    decode and [wrangler.toml] is a good file. *)
Definition tree : node :=
  Dir [("w", Dir [("worker", Dir [("src", Dir [
          ("a.ts", File [xff; xfe]);
          ("b.ts", Dir []);
          ("c.ts", File (Sample.bytes "export {}"))])])]);
       ("v", Dir [("vitest.config.ts", File [xc3; x28]);
                  ("wrangler.toml", File (Sample.bytes "name = 4"))])].


Definition out_md : Path := mkPath Root ["out.md"].


End Partial.

(** * Properties *)

(** ** Strings *)

Lemma length_app (a b : string) :
  String.length (a ++ b) = String.length a + String.length b.
Proof. induction a as [|c a IH]; simpl; [reflexivity | now rewrite IH]. Qed.

Lemma app_assoc_str (a b c : string) : ((a ++ b) ++ c = a ++ (b ++ c))%string.
Proof. induction a as [|x a IH]; simpl; [reflexivity | now rewrite IH]. Qed.

Lemma drop_app (a b : string) (k : nat) :
  PyStr.drop (String.length a + k) (a ++ b) = PyStr.drop k b.
Proof. induction a as [|c a IH]; simpl; [reflexivity | exact IH]. Qed.

Lemma drop_split (n : nat) (s : string) :
  n <= String.length s -> exists stem, s = (stem ++ PyStr.drop n s)%string.
Proof.
  revert s; induction n as [|n IH]; intros s Hn.
  - exists ""; reflexivity.
  - destruct s as [|c s]; simpl in Hn; [lia|].
    destruct (IH s) as [stem Hs]; [lia|].
    exists (String c stem); simpl; now rewrite <- Hs.
Qed.

(** [endswith] is what it says: the string is some stem followed by the
    suffix. *)
Lemma endswith_iff (s suf : string) :
  PyStr.endswith s suf = true <-> exists stem, s = (stem ++ suf)%string.
Proof.
  unfold PyStr.endswith; split.
  - intros H; apply andb_true_iff in H as [Hlen Heq].
    apply Nat.leb_le in Hlen; apply String.eqb_eq in Heq.
    destruct (drop_split (String.length s - String.length suf) s) as [stem Hs];
      [lia|].
    exists stem; now rewrite Heq in Hs.
  - intros [stem ->]; rewrite length_app; apply andb_true_iff; split.
    + apply Nat.leb_le; lia.
    + replace (String.length stem + String.length suf - String.length suf)
        with (String.length stem + 0) by lia.
      rewrite (drop_app stem suf 0); simpl; apply String.eqb_refl.
Qed.

Lemma rfind_from_app (c : ascii) (a b : string) (i last : Z) :
  PyStr.rfind_from c (a ++ b) i last
  = PyStr.rfind_from c b (i + Z.of_nat (String.length a))
                     (PyStr.rfind_from c a i last).
Proof.
  revert i last; induction a as [|x a IH]; intros i last; simpl.
  - f_equal; lia.
  - rewrite IH; f_equal; lia.
Qed.

(** The suffix of a name [stem ++ ".ts"], and likewise for the other two
    extensions the classifier knows, whenever the stem is not empty. *)
Lemma suffix_of_stem_ext (p : Path) (stem ext : string) :
  PurePath.name p = (stem ++ ext)%string ->
  stem <> "" ->
  In ext [".ts"; ".tsx"; ".toml"] ->
  PurePath.suffix p = ext.
Proof.
  intros Hname Hstem Hext; unfold PurePath.suffix, PyStr.rfind.
  rewrite Hname, rfind_from_app, length_app.
  assert (0 < String.length stem) by (destruct stem; simpl; [congruence | lia]).
  unfold PyStr.slice_from.
  destruct Hext as [<- | [<- | [<- | []]]]; simpl PyStr.rfind_from;
    simpl String.length;
    match goal with
    | |- context [if ?b then _ else _] =>
      replace b with true by (symmetry; apply andb_true_iff; split;
                              apply Z.ltb_lt; lia)
    end;
    rewrite ?Z.add_0_l, Nat2Z.id, <- (Nat.add_0_r (String.length stem));
    now rewrite drop_app.
Qed.

(** ** The language classifier *)

Lemma lower_append (a b : string) :
  PyStr.lower (a ++ b) = (PyStr.lower a ++ PyStr.lower b)%string.
Proof. induction a as [|c a IH]; simpl; [reflexivity | now rewrite IH]. Qed.

(** C8: the classifier is a total function of the lower-cased suffix of the
    path: [".toml"] gives ["toml"], [".ts"] and [".tsx"] give the one
    two-letter tag ["ts"], and every other suffix, the empty one included,
    gives ["text"]. *)
Theorem file_language_for_classifies (p : Path) :
  let s := PyStr.lower (PurePath.suffix p) in
  (s = ".toml" /\ file_language_for p = "toml")
  \/ ((s = ".ts" \/ s = ".tsx") /\ file_language_for p = "ts"
      /\ String.length (file_language_for p) = 2)
  \/ (s <> ".toml" /\ s <> ".ts" /\ s <> ".tsx"
      /\ file_language_for p = "text").
Proof.
  intros s; unfold file_language_for; fold s.
  destruct (String.eqb_spec s ".toml") as [E1|N1]; [left; now split|].
  destruct (String.eqb_spec s ".ts") as [E2|N2];
    [right; left; simpl; repeat split; now left|].
  destruct (String.eqb_spec s ".tsx") as [E3|N3];
    [right; left; simpl; repeat split; now right|].
  right; right; simpl; now repeat split.
Qed.

(** C10: a declaration file is classified by its last extension only, so it
    gets the tag of a plain [.ts] file and never ["text"]. *)
Theorem declaration_file_language (p q : Path) (stem : string) :
  PyStr.endswith (PurePath.name p) ".d.ts" = true ->
  PurePath.name q = (stem ++ ".ts")%string ->
  stem <> "" ->
  file_language_for p = "ts"
  /\ file_language_for p = file_language_for q
  /\ file_language_for p <> "text".
Proof.
  intros Hp Hq Hstem.
  apply endswith_iff in Hp as [st Hp].
  assert (Sp : PurePath.suffix p = ".ts").
  { apply (suffix_of_stem_ext p (st ++ ".d") ".ts").
    - now rewrite app_assoc_str.
    - destruct st; discriminate.
    - now left. }
  assert (Sq : PurePath.suffix q = ".ts").
  { apply (suffix_of_stem_ext q stem ".ts");
      [assumption | assumption | now left]. }
  unfold file_language_for; rewrite Sp, Sq; simpl.
  repeat split; discriminate.
Qed.

Lemma declaration_file_language_witness :
  file_language_for (mkPath Relative ["worker"; "src"; "env.d.ts"]) = "ts"
  /\ file_language_for (mkPath Relative ["worker"; "src"; "env.d.ts"])
     = file_language_for (mkPath Relative ["worker"; "src"; "index.ts"])
  /\ file_language_for (mkPath Relative ["worker"; "src"; "env.d.ts"]) <> "text".
Proof.
  apply (declaration_file_language _ _ "index");
    [reflexivity | reflexivity | discriminate].
Defined.

(** ** Sorting *)

Section SortedFacts.

Variable key : Path -> string.

Lemma insert_by_in (x y : Path) (l : list Path) :
  In y (insert_by key x l) <-> y = x \/ In y l.
Proof.
  induction l as [|z l IH]; simpl.
  - intuition congruence.
  - destruct (String.leb (key x) (key z)); simpl; [intuition congruence|].
    rewrite IH; intuition congruence.
Qed.

Lemma sorted_in (y : Path) (l : list Path) :
  In y (sorted key l) <-> In y l.
Proof.
  induction l as [|x l IH]; simpl; [reflexivity|].
  rewrite insert_by_in, IH; intuition congruence.
Qed.

Lemma insert_by_hdrel (a x : Path) (l : list Path) :
  PyStr.le (key a) (key x) ->
  HdRel (fun p q => PyStr.le (key p) (key q)) a l ->
  HdRel (fun p q => PyStr.le (key p) (key q)) a (insert_by key x l).
Proof.
  intros Hax Hl; destruct l as [|z l]; simpl; [now constructor|].
  destruct (String.leb (key x) (key z)); constructor; [assumption|].
  now inversion Hl.
Qed.

Lemma insert_by_sorted (x : Path) (l : list Path) :
  Sorted (fun p q => PyStr.le (key p) (key q)) l ->
  Sorted (fun p q => PyStr.le (key p) (key q)) (insert_by key x l).
Proof.
  induction 1 as [|z l Hs IH Hhd]; simpl; [repeat constructor|].
  destruct (String.leb (key x) (key z)) eqn:E.
  - constructor; [now constructor | now constructor].
  - constructor; [assumption|].
    apply insert_by_hdrel; [|assumption].
    destruct (String.leb_total (key x) (key z)) as [H|H];
      [congruence | exact H].
Qed.

Lemma sorted_is_sorted (l : list Path) :
  Sorted (fun p q => PyStr.le (key p) (key q)) (sorted key l).
Proof.
  induction l as [|x l IH]; simpl; [constructor | now apply insert_by_sorted].
Qed.

End SortedFacts.

(** ** The file locator *)

(** What the checks answer, when they answer. *)
Lemma exists_present (w : World) (p : Path) (b : bool) :
  PathIO.exists_ w p = Ok b -> is_present w p = b.
Proof.
  unfold PathIO.exists_, is_present.
  destruct (PathIO.stat w p) as [n|e]; [now intros [= <-]|].
  destruct (PathIO.ignore_error e); [now intros [= <-] | discriminate].
Qed.

Lemma is_dir_present (w : World) (p : Path) (b : bool) :
  PathIO.is_dir w p = Ok b -> is_present_dir w p = b.
Proof.
  unfold PathIO.is_dir, is_present_dir.
  destruct (PathIO.stat w p) as [[d|es]|e]; try (now intros [= <-]).
  destruct (PathIO.ignore_error e); [now intros [= <-] | discriminate].
Qed.

Lemma find_extras_ok (w : World) (r : Path) (names : list string) :
  forall l,
    find_extras w r names = Ok l ->
    l = flat_map (fun extra =>
                    if is_present w (PurePath.joinpath r extra)
                    then [PurePath.joinpath r extra] else [])
                 names.
Proof.
  induction names as [|nm names IH]; intros l; simpl; [now intros [= <-]|].
  destruct (PathIO.exists_ w (PurePath.joinpath r nm)) as [b|e] eqn:E;
    simpl; [|discriminate].
  destruct (find_extras w r names) as [more|e]; simpl; [|discriminate].
  intros [= <-]; now rewrite (exists_present _ _ _ E), (IH more eq_refl).
Qed.

(** When [find_files] returns, it returns the sorted candidates. *)
Lemma find_files_candidates (w : World) (r : Path) (skip : bool)
      (files : list Path) :
  find_files w r skip = Ok files ->
  files = sorted sort_key (candidates w r skip).
Proof.
  unfold find_files, candidates.
  set (wd := PurePath.joinpath (PurePath.joinpath r "worker") "src").
  destruct (PathIO.exists_ w wd) as [there|e] eqn:Et; cbn [bind];
    [|discriminate].
  rewrite (exists_present _ _ _ Et).
  destruct (if there then PathIO.is_dir w wd else Ok false) as [scan|e] eqn:Es;
    cbn [bind]; [|discriminate].
  assert (Hguard : there && is_present_dir w wd = scan).
  { destruct there; simpl in Es |- *;
      [now apply is_dir_present | now injection Es as <-]. }
  rewrite Hguard.
  destruct (find_extras w r ["wrangler.toml"; "vitest.config.ts"])
    as [extras|e] eqn:Ee; cbn [bind]; [|discriminate].
  intros [= <-]; now rewrite (find_extras_ok _ _ _ _ Ee).
Qed.

(** C1: the list [find_files] returns is in ascending order of the
    lower-cased path strings, and what [find_files] does is a function of the
    directory tree and the working directory alone: discovery on an unchanged
    tree returns the same list in the same order, whatever else has happened
    in the world. *)
Theorem find_files_sorted_deterministic (w : World) (r : Path) (skip : bool) :
  (forall files,
      find_files w r skip = Ok files ->
      Sorted (fun p q => PyStr.le (PyStr.lower (PurePath.str p))
                                  (PyStr.lower (PurePath.str q)))
             files)
  /\ forall w' : World,
       fs w' = fs w -> cwd w' = cwd w ->
       find_files w' r skip = find_files w r skip.
Proof.
  split.
  - intros files Hfiles; rewrite (find_files_candidates _ _ _ _ Hfiles).
    apply (sorted_is_sorted sort_key).
  - intros [f' c' n' o' e' b'] Hfs Hcwd; destruct w as [f c n o e b];
      simpl in *.
    now subst.
Qed.

Lemma leb_common_prefix (a b c : string) :
  String.leb (a ++ b) (a ++ c) = String.leb b c.
Proof.
  unfold String.leb; induction a as [|x a IH]; simpl; [reflexivity|].
  unfold Ascii.compare; now rewrite N.compare_refl.
Qed.

Lemma join_snoc (ps : list string) :
  exists pre, forall nm, PyStr.join "/" (ps ++ [nm]) = (pre ++ nm)%string.
Proof.
  induction ps as [|p ps [pre IH]].
  - exists ""; reflexivity.
  - exists (p ++ "/" ++ pre)%string; intros nm.
    specialize (IH nm); simpl; destruct (ps ++ [nm]) eqn:E.
    + destruct ps; discriminate.
    + now rewrite IH, !app_assoc_str.
Qed.

(** The string of [r / nm] is a prefix that depends on [r] only, followed by
    [nm]. *)
Lemma str_joinpath (r : Path) :
  exists pre, forall nm,
    PurePath.str (PurePath.joinpath r nm) = (pre ++ nm)%string.
Proof.
  destruct r as [a ps]; destruct (join_snoc ps) as [pre Hpre].
  unfold PurePath.str, PurePath.joinpath; simpl; destruct a.
  - exists pre; intros nm; rewrite <- Hpre.
    destruct (ps ++ [nm]) eqn:E; [destruct ps; discriminate | reflexivity].
  - exists ("/" ++ pre)%string; intros nm; now rewrite Hpre.
  - exists ("//" ++ pre)%string; intros nm; now rewrite Hpre.
Qed.

Lemma name_joinpath (r : Path) (nm : string) :
  PurePath.name (PurePath.joinpath r nm) = nm.
Proof. unfold PurePath.name, PurePath.joinpath; simpl; apply last_last. Qed.

Lemma canon_app (root : node) (ps qs acc : list string) :
  FS.canon root acc (ps ++ qs)
  = bind (FS.canon root acc ps) (fun c => FS.canon root c qs).
Proof.
  revert acc; induction ps as [|p ps IH]; intros acc; simpl; [reflexivity|].
  destruct (FS.lookup root acc) as [[d|es]|]; try reflexivity.
  destruct (String.eqb p ".."); [apply IH|].
  destruct (FS.NAME_MAX <? String.length p)%nat; [reflexivity | apply IH].
Qed.

Lemma abs_parts_joinpath (w : World) (p : Path) (nm : string) :
  PathIO.abs_parts w (PurePath.joinpath p nm) = PathIO.abs_parts w p ++ [nm].
Proof.
  unfold PathIO.abs_parts, PurePath.joinpath; simpl.
  destruct (anchor p); [now rewrite app_assoc | reflexivity | reflexivity].
Qed.

(** Below a path that does not exist nothing exists. *)
Lemma exists_joinpath_false (w : World) (p : Path) (nm : string) :
  PathIO.exists_ w p = Ok false ->
  PathIO.exists_ w (PurePath.joinpath p nm) = Ok false.
Proof.
  unfold PathIO.exists_, PathIO.stat, PathIO.resolve.
  rewrite abs_parts_joinpath, canon_app.
  destruct (FS.canon (fs w) [] (PathIO.abs_parts w p)) as [c|e]; simpl;
    [|trivial].
  destruct (FS.lookup (fs w) c) as [[d|es]|]; try discriminate; reflexivity.
Qed.

Lemma sorted_extras (r : Path) (bw bv : bool) :
  sorted sort_key
         ((if bw then [PurePath.joinpath r "wrangler.toml"] else [])
          ++ (if bv then [PurePath.joinpath r "vitest.config.ts"] else [])
          ++ [])
  = (if bv then [PurePath.joinpath r "vitest.config.ts"] else [])
    ++ (if bw then [PurePath.joinpath r "wrangler.toml"] else []).
Proof.
  destruct bw, bv; simpl; try reflexivity.
  unfold sort_key; destruct (str_joinpath r) as [pre Hpre].
  now rewrite !Hpre, !lower_append, leb_common_prefix.
Qed.

(** Without a scan, [find_files] is the loop over the extras and the sort. *)
Lemma find_files_no_scan (w : World) (r : Path) (skip : bool) :
  PathIO.is_dir w (PurePath.joinpath (PurePath.joinpath r "worker") "src")
  = Ok false ->
  find_files w r skip = existing_extras w r.
Proof.
  intros Hdir; unfold find_files, existing_extras.
  set (wd := PurePath.joinpath (PurePath.joinpath r "worker") "src") in *.
  assert (Hex : exists there, PathIO.exists_ w wd = Ok there).
  { unfold PathIO.is_dir in Hdir; unfold PathIO.exists_.
    destruct (PathIO.stat w wd) as [n|e]; [now exists true|].
    destruct (PathIO.ignore_error e); [now exists false | discriminate]. }
  destruct Hex as [there ->]; simpl.
  replace (if there then PathIO.is_dir w wd else Ok false) with (Ok false : result bool)
    by (destruct there; [now rewrite Hdir | reflexivity]).
  simpl.
  destruct (PathIO.exists_ w (PurePath.joinpath r "wrangler.toml")) as [bw|e];
    simpl; [|reflexivity].
  destruct (PathIO.exists_ w (PurePath.joinpath r "vitest.config.ts"))
    as [bv|e]; simpl; [|reflexivity].
  f_equal; apply sorted_extras.
Qed.

Lemma exists_false_is_dir_false (w : World) (p : Path) :
  PathIO.exists_ w p = Ok false -> PathIO.is_dir w p = Ok false.
Proof.
  unfold PathIO.exists_, PathIO.is_dir.
  destruct (PathIO.stat w p) as [n|e]; [discriminate|].
  now destruct (PathIO.ignore_error e).
Qed.

(** C7: [find_files] does not catch what its existence checks raise: when
    the check of [worker/src] raises, so does [find_files].  When that check
    answers that [worker/src] does not exist and the checks of the two extras
    answer too, nothing is scanned and [find_files] returns exactly the
    extras that exist; it returns the empty list when the root itself does
    not exist. *)
Theorem find_files_without_worker_src (w : World) (r : Path) (skip : bool) :
  let worker_dir := PurePath.joinpath (PurePath.joinpath r "worker") "src" in
  let wrangler := PurePath.joinpath r "wrangler.toml" in
  let vitest := PurePath.joinpath r "vitest.config.ts" in
  (forall bw bv,
      PathIO.exists_ w worker_dir = Ok false ->
      PathIO.exists_ w wrangler = Ok bw ->
      PathIO.exists_ w vitest = Ok bv ->
      find_files w r skip
      = Ok ((if bv then [vitest] else []) ++ (if bw then [wrangler] else []))
      /\ (PathIO.exists_ w r = Ok false -> find_files w r skip = Ok []))
  /\ (forall e,
         PathIO.exists_ w worker_dir = Raise e -> find_files w r skip = Raise e).
Proof.
  intros worker_dir wrangler vitest; split.
  - intros bw bv Hwd Hbw Hbv.
    assert (Hff : find_files w r skip
                  = Ok ((if bv then [vitest] else [])
                        ++ (if bw then [wrangler] else []))).
    { rewrite (find_files_no_scan w r skip
                 (exists_false_is_dir_false _ _ Hwd)).
      unfold existing_extras; fold wrangler; fold vitest.
      now rewrite Hbw, Hbv. }
    split; [exact Hff|].
    intros Hr; rewrite Hff.
    pose proof (exists_joinpath_false w r "wrangler.toml" Hr) as Hw.
    pose proof (exists_joinpath_false w r "vitest.config.ts" Hr) as Hv.
    fold wrangler in Hw; fold vitest in Hv.
    rewrite Hbw in Hw; rewrite Hbv in Hv.
    injection Hw as ->; injection Hv as ->; reflexivity.
  - intros e He; unfold find_files; fold worker_dir; now rewrite He.
Qed.

(** C7, as the claim has it, fails: under a root that is a name of 300
    characters nothing exists, and [find_files] raises the error of its
    first existence check. *)
Lemma find_files_raises_for_a_long_name :
  let r := mkPath Relative [Sample.long_name] in
  FS.lookup (fs Sample.world) (cwd Sample.world ++ parts r) = None
  /\ FS.lookup (fs Sample.world)
               (cwd Sample.world ++ parts r ++ ["worker"; "src"]) = None
  /\ find_files Sample.world r true = Raise OSError
  /\ find_files Sample.world r false = Raise OSError.
Proof. intros r; repeat split; vm_compute; reflexivity. Qed.

Lemma under_nonempty (d : node) (rel : list string) : under d rel -> rel <> [].
Proof. destruct 1; discriminate. Qed.

Lemma last_app_nonempty (l rel : list string) (d : string) :
  rel <> [] -> last (l ++ rel) d = last rel d.
Proof.
  intros Hrel; induction l as [|a l IH]; simpl; [reflexivity|].
  destruct (l ++ rel) eqn:E; [|exact IH].
  apply app_eq_nil in E as [_ E]; contradiction.
Qed.

(** The recursive glob finds every entry below the directory whose name
    matches. *)
Lemma rglob_under (ext : string) (d : node) (rel : list string) :
  under d rel ->
  PyStr.endswith (last rel "") ext = true ->
  In rel (PathIO.rglob ext d).
Proof.
  induction 1 as [es nm c Hin | es nm c rel Hin Hu IH]; intros Hend; simpl;
    apply in_or_app.
  - left; apply (in_map (fun e => [fst e]) _ (nm, c)), filter_In; now split.
  - right; apply in_flat_map; exists (nm, c); split; [assumption|]; simpl.
    apply in_map, IH.
    destruct rel; [now apply under_nonempty in Hu | exact Hend].
Qed.

(** C5: a [.d.ts] entry anywhere below [worker/src] is left out of the result
    when the flag is set and is part of it when the flag is not set. *)
Theorem declaration_files_follow_flag
        (w : World) (r : Path) (d : node) (rel : list string)
        (with_flag without_flag : list Path) :
  let worker_dir := PurePath.joinpath (PurePath.joinpath r "worker") "src" in
  let p := mkPath (anchor worker_dir) (parts worker_dir ++ rel) in
  PathIO.stat w worker_dir = Ok d ->
  under d rel ->
  PyStr.endswith (PurePath.name p) ".d.ts" = true ->
  find_files w r true = Ok with_flag ->
  find_files w r false = Ok without_flag ->
  ~ In p with_flag /\ In p without_flag.
Proof.
  intros worker_dir p Hstat Hu Hend Hwith Hwithout.
  rewrite (find_files_candidates _ _ _ _ Hwith).
  rewrite (find_files_candidates _ _ _ _ Hwithout).
  assert (Hdir : is_present w worker_dir && is_present_dir w worker_dir = true).
  { unfold is_present, is_present_dir; rewrite Hstat; now destruct Hu. }
  split.
  - unfold candidates; fold worker_dir; rewrite Hdir.
    rewrite sorted_in, in_app_iff, !in_flat_map.
    intros [[ext [_ Hp]] | [extra [Hex Hp]]].
    + apply filter_In in Hp as [_ Hp]; simpl in Hp.
      now rewrite Hend in Hp.
    + assert (Hn : PurePath.name p = extra).
      { destruct (is_present w (PurePath.joinpath r extra));
          [|contradiction].
        destruct Hp as [<- | []]; apply name_joinpath. }
      rewrite Hn in Hend.
      destruct Hex as [<- | [<- | []]]; discriminate.
  - unfold candidates; fold worker_dir; rewrite Hdir.
    apply sorted_in, in_or_app; left.
    apply in_flat_map; exists ".ts"; split; [now left|].
    apply filter_In; split; [|reflexivity].
    unfold PathIO.glob; rewrite Hstat.
    apply (in_map (fun rel => mkPath (anchor worker_dir)
                                     (parts worker_dir ++ rel))).
    apply rglob_under; [assumption|].
    unfold PurePath.name in Hend; simpl in Hend.
    rewrite (last_app_nonempty _ rel "" (under_nonempty _ _ Hu)) in Hend.
    apply endswith_iff in Hend as [stem Hs].
    apply endswith_iff; exists (stem ++ ".d")%string.
    now rewrite Hs, app_assoc_str.
Qed.

Lemma find_files_sorted_deterministic_witness :
  fs Sample.world_later = fs Sample.world
  /\ cwd Sample.world_later = cwd Sample.world
  /\ find_files Sample.world_later Sample.proj true
     = find_files Sample.world Sample.proj true
  /\ (exists files,
        find_files Sample.world Sample.proj true = Ok files
        /\ map PurePath.str files
           = ["/home/u/proj/vitest.config.ts";
              "/home/u/proj/worker/src/index.ts";
              "/home/u/proj/worker/src/lib/Util.tsx";
              "/home/u/proj/worker/src/logo.ts"; "/home/u/proj/wrangler.toml"]
        /\ Sorted (fun p q => PyStr.le (PyStr.lower (PurePath.str p))
                                       (PyStr.lower (PurePath.str q)))
                  files).
Proof.
  destruct (find_files_sorted_deterministic Sample.world Sample.proj true)
    as [Hsorted Hsame].
  split; [reflexivity|]; split; [reflexivity|]; split.
  - apply Hsame; reflexivity.
  - destruct (find_files Sample.world Sample.proj true) as [files|e] eqn:E;
      [|vm_compute in E; discriminate].
    exists files; split; [reflexivity|]; split; [|now apply Hsorted].
    vm_compute in E; injection E as <-; reflexivity.
Defined.

Lemma find_files_without_worker_src_witness :
  let wrangler := PurePath.joinpath Sample.conf "wrangler.toml" in
  let gone := mkPath Relative [".."; "gone"] in
  PathIO.exists_ Sample.world
    (PurePath.joinpath (PurePath.joinpath Sample.conf "worker") "src")
  = Ok false
  /\ PathIO.exists_ Sample.world wrangler = Ok true
  /\ PathIO.exists_ Sample.world
       (PurePath.joinpath Sample.conf "vitest.config.ts") = Ok false
  /\ find_files Sample.world Sample.conf true = Ok [wrangler]
  /\ PathIO.exists_ Sample.world gone = Ok false
  /\ find_files Sample.world gone true = Ok []
  /\ PathIO.exists_ Sample.world
       (PurePath.joinpath
          (PurePath.joinpath (mkPath Relative [Sample.long_name]) "worker")
          "src")
     = Raise OSError
  /\ find_files Sample.world (mkPath Relative [Sample.long_name]) true
     = Raise OSError.
Proof.
  intros wrangler gone.
  assert (Hlong : PathIO.exists_ Sample.world
                    (PurePath.joinpath
                       (PurePath.joinpath (mkPath Relative [Sample.long_name])
                                          "worker")
                       "src")
                  = Raise OSError) by (vm_compute; reflexivity).
  split; [reflexivity|]; split; [reflexivity|]; split; [reflexivity|].
  split; [|split; [reflexivity|split; [|split; [exact Hlong|]]]].
  - exact (proj1 (proj1 (find_files_without_worker_src Sample.world
                           Sample.conf true)
                        true false eq_refl eq_refl eq_refl)).
  - exact (proj2 (proj1 (find_files_without_worker_src Sample.world gone true)
                        false false eq_refl eq_refl eq_refl)
                 eq_refl).
  - exact (proj2 (find_files_without_worker_src Sample.world
                    (mkPath Relative [Sample.long_name]) true)
                 OSError Hlong).
Defined.

Lemma declaration_files_follow_flag_witness :
  let p := mkPath Root ["home"; "u"; "proj"; "worker"; "src"; "env.d.ts"] in
  PathIO.stat Sample.world
    (PurePath.joinpath (PurePath.joinpath Sample.proj "worker") "src")
  = Ok Sample.src_dir
  /\ under Sample.src_dir ["env.d.ts"]
  /\ PyStr.endswith (PurePath.name p) ".d.ts" = true
  /\ exists with_flag without_flag,
       find_files Sample.world Sample.proj true = Ok with_flag
       /\ find_files Sample.world Sample.proj false = Ok without_flag
       /\ ~ In p with_flag
       /\ In p without_flag.
Proof.
  intros p.
  assert (Hu : under Sample.src_dir ["env.d.ts"]).
  { apply (under_entry _ "env.d.ts"
                       (File (Sample.bytes "declare const x: number;"))).
    simpl; right; left; reflexivity. }
  split; [reflexivity|]; split; [exact Hu|]; split; [reflexivity|].
  destruct (find_files Sample.world Sample.proj true) as [wf|e] eqn:Ewith;
    [|vm_compute in Ewith; discriminate].
  destruct (find_files Sample.world Sample.proj false) as [wo|e] eqn:Ewithout;
    [|vm_compute in Ewithout; discriminate].
  exists wf, wo; split; [reflexivity|]; split; [reflexivity|].
  exact (declaration_files_follow_flag Sample.world Sample.proj Sample.src_dir
           ["env.d.ts"] wf wo eq_refl Hu eq_refl Ewith Ewithout).
Defined.

(** ** Writing a file into the tree *)

Lemma lookup_app (n : node) (a b : list string) :
  FS.lookup n (a ++ b)
  = match FS.lookup n a with
    | Some m => FS.lookup m b
    | None => None
    end.
Proof.
  revert n; induction a as [|x a IH]; intros n; simpl; [reflexivity|].
  destruct n as [data|es]; [reflexivity|].
  destruct (FS.find_entry x es); [apply IH | reflexivity].
Qed.

Lemma find_entry_upd_same (nm : string) (f : option node -> node)
      (es : list (string * node)) :
  FS.find_entry nm (FS.upd nm f es) = Some (f (FS.find_entry nm es)).
Proof.
  induction es as [|[k c] es IH]; simpl.
  - now rewrite String.eqb_refl.
  - destruct (String.eqb k nm) eqn:E; simpl; rewrite E; [reflexivity | exact IH].
Qed.

Lemma find_entry_upd_other (nm k : string) (f : option node -> node)
      (es : list (string * node)) :
  k <> nm -> FS.find_entry k (FS.upd nm f es) = FS.find_entry k es.
Proof.
  intros Hk; induction es as [|[k' c] es IH]; simpl.
  - destruct (String.eqb_spec nm k); [congruence | reflexivity].
  - destruct (String.eqb_spec k' nm) as [->|Hne]; simpl.
    + destruct (String.eqb_spec nm k); [congruence | reflexivity].
    + destruct (String.eqb_spec k' k); [reflexivity | exact IH].
Qed.

Lemma upd_ext (nm : string) (f g : option node -> node)
      (es : list (string * node)) :
  (forall o, f o = g o) -> FS.upd nm f es = FS.upd nm g es.
Proof.
  intros H; induction es as [|[k c] es IH]; simpl; [now rewrite H|].
  destruct (String.eqb k nm); [now rewrite H | now rewrite IH].
Qed.

Lemma upd_upd (nm : string) (f g : option node -> node)
      (es : list (string * node)) :
  FS.upd nm g (FS.upd nm f es) = FS.upd nm (fun o => g (Some (f o))) es.
Proof.
  induction es as [|[k c] es IH]; simpl.
  - now rewrite String.eqb_refl.
  - destruct (String.eqb k nm) eqn:E; simpl; rewrite E; [reflexivity|].
    now rewrite IH.
Qed.

(** The last write wins. *)
Lemma set_file_twice (names : list string) (d1 d2 : list byte) :
  forall n, FS.set_file names d2 (FS.set_file names d1 n)
            = FS.set_file names d2 n.
Proof.
  induction names as [|nm rest IH]; intros n; simpl; [reflexivity|].
  destruct n as [data|es]; [reflexivity|].
  rewrite upd_upd; f_equal; apply upd_ext; intros o; apply IH.
Qed.

(** Reading back what was written, in a directory that exists. *)
Lemma lookup_set_file (dirs : list string) (nm : string) (data : list byte) :
  forall n es,
    FS.lookup n dirs = Some (Dir es) ->
    FS.lookup (FS.set_file (dirs ++ [nm]) data n) (dirs ++ [nm])
    = Some (File data).
Proof.
  induction dirs as [|d dirs IH]; intros n es; simpl.
  - intros [= ->]; now rewrite find_entry_upd_same.
  - destruct n as [x|es']; [discriminate|].
    destruct (FS.find_entry d es') as [c|] eqn:E; [|discriminate].
    intros Hc; rewrite find_entry_upd_same, E.
    exact (IH c es Hc).
Qed.

(** Two paths diverge when they differ at some position: neither is the
    other nor lies below it.  Writing at one leaves the other alone. *)
Lemma lookup_set_file_other (common : list string) (x y : string)
      (a b : list string) (data : list byte) :
  x <> y ->
  forall n,
    FS.lookup (FS.set_file (common ++ x :: a) data n) (common ++ y :: b)
    = FS.lookup n (common ++ y :: b).
Proof.
  intros Hxy; induction common as [|z common IH]; intros n; simpl.
  - destruct n as [d|es]; [reflexivity|].
    rewrite find_entry_upd_other by congruence; reflexivity.
  - destruct n as [d|es]; [reflexivity|].
    rewrite find_entry_upd_same.
    destruct (FS.find_entry z es) as [c|]; [apply IH|].
    rewrite IH; now destruct common.
Qed.

Lemma lookup_removelast (root : node) (acc : list string)
      (es : list (string * node)) :
  FS.lookup root acc = Some (Dir es) ->
  exists es', FS.lookup root (removelast acc) = Some (Dir es').
Proof.
  destruct acc as [|a acc0]; [intros H; now exists es|].
  destruct (exists_last (l := a :: acc0)) as [acc' [x ->]]; [discriminate|].
  rewrite removelast_last, lookup_app.
  destruct (FS.lookup root acc') as [[d|es']|]; simpl; try discriminate.
  intros _; now exists es'.
Qed.

(** Where a successful resolution ends: at the start, at a directory, or at
    a name (present or not) in a directory. *)
Lemma canon_result (root : node) (ps : list string) :
  forall acc c,
    FS.canon root acc ps = Ok c ->
    (ps = [] /\ c = acc)
    \/ (exists es, FS.lookup root c = Some (Dir es))
    \/ (exists dirs nm es,
          c = dirs ++ [nm] /\ FS.lookup root dirs = Some (Dir es)).
Proof.
  induction ps as [|p ps IH]; intros acc c; simpl.
  - intros [= <-]; now left.
  - destruct (FS.lookup root acc) as [[d|es]|] eqn:E; try discriminate.
    destruct (String.eqb p "..").
    + intros H; destruct (IH _ _ H) as [[_ ->] | H']; [|now right].
      right; left; exact (lookup_removelast root acc es E).
    + destruct (FS.NAME_MAX <? String.length p)%nat; [discriminate|].
      intros H; destruct (IH _ _ H) as [[_ ->] | H']; [|now right].
      right; right; now exists acc, p, es.
Qed.

(** Where [open("w")] puts the file: at a name, in a directory that exists,
    that is not the name of a directory (or at the root, in a tree that is
    one regular file). *)
Lemma open_w_place (w : World) (p : Path) (place : list string) :
  PathIO.open_w w p = Ok place ->
  PathIO.resolve w p = Ok place
  /\ (forall es, FS.lookup (fs w) place <> Some (Dir es))
  /\ ((place = [] /\ exists y, fs w = File y)
      \/ exists dirs nm es,
           place = dirs ++ [nm] /\ FS.lookup (fs w) dirs = Some (Dir es)).
Proof.
  unfold PathIO.open_w, PathIO.resolve.
  destruct (FS.canon (fs w) [] (PathIO.abs_parts w p)) as [c|e] eqn:Hc;
    simpl; [|discriminate].
  intros Hopen.
  assert (Hplace : c = place)
    by (destruct (FS.lookup (fs w) c) as [[y|es']|]; congruence).
  subst c.
  assert (Hnd : forall es, FS.lookup (fs w) place <> Some (Dir es))
    by (intros es H; rewrite H in Hopen; discriminate).
  split; [reflexivity|]; split; [exact Hnd|].
  destruct (canon_result _ _ _ _ Hc)
    as [[_ ->] | [[es Hes] | (dirs & nm & es & -> & Hes)]].
  - left; split; [reflexivity|].
    destruct (fs w) as [y|es] eqn:Efs; [now exists y|].
    exfalso; now apply (Hnd es).
  - exfalso; now apply (Hnd es).
  - right; now exists dirs, nm, es.
Qed.

Lemma open_w_readback (w : World) (p : Path) (place : list string)
      (data : list byte) :
  PathIO.open_w w p = Ok place ->
  FS.lookup (FS.set_file place data (fs w)) place = Some (File data).
Proof.
  intros Hopen.
  destruct (open_w_place w p place Hopen)
    as (_ & _ & [[-> _] | (dirs & nm & es & -> & Hes)]).
  - reflexivity.
  - exact (lookup_set_file dirs nm data (fs w) es Hes).
Qed.

(** Creating a file in an existing directory, at a name that is not a
    directory, keeps every directory a directory and every regular file a
    regular file. *)
Lemma set_file_keeps_kinds (dirs : list string) (nm : string)
      (data : list byte) :
  forall n es,
    FS.lookup n dirs = Some (Dir es) ->
    (forall es', FS.lookup n (dirs ++ [nm]) <> Some (Dir es')) ->
    forall q,
      (forall es0, FS.lookup n q = Some (Dir es0) ->
                   exists es1,
                     FS.lookup (FS.set_file (dirs ++ [nm]) data n) q
                     = Some (Dir es1))
      /\ (forall x, FS.lookup n q = Some (File x) ->
                    exists x',
                      FS.lookup (FS.set_file (dirs ++ [nm]) data n) q
                      = Some (File x')).
Proof.
  induction dirs as [|d dirs IH]; intros n es Hdir Hnd q.
  - simpl in Hdir; injection Hdir as ->; simpl in Hnd |- *.
    destruct q as [|k q']; simpl; [split; [eauto | discriminate]|].
    destruct (String.eqb_spec k nm) as [->|Hk].
    + rewrite find_entry_upd_same.
      destruct (FS.find_entry nm es) as [[y|es']|];
        [| exfalso; now apply (Hnd es') | split; discriminate].
      destruct q'; simpl; split; try discriminate; eauto.
    + rewrite find_entry_upd_other by exact Hk; split; eauto.
  - simpl in Hdir; destruct n as [y|es0]; [discriminate|].
    destruct (FS.find_entry d es0) as [c|] eqn:Ec; [|discriminate].
    simpl in Hnd; rewrite Ec in Hnd.
    destruct q as [|k q']; simpl; [split; [eauto | discriminate]|].
    destruct (String.eqb_spec k d) as [->|Hk].
    + rewrite find_entry_upd_same, Ec.
      exact (IH c es Hdir Hnd q').
    + rewrite find_entry_upd_other by exact Hk; split; eauto.
Qed.

(** Writing at a name in a directory leaves every other regular file as it
    is. *)
Lemma lookup_file_kept (dirs : list string) (nm : string) (data : list byte) :
  forall n es q y,
    FS.lookup n dirs = Some (Dir es) ->
    (forall es', FS.lookup n (dirs ++ [nm]) <> Some (Dir es')) ->
    q <> dirs ++ [nm] ->
    FS.lookup n q = Some (File y) ->
    FS.lookup (FS.set_file (dirs ++ [nm]) data n) q = Some (File y).
Proof.
  induction dirs as [|d dirs IH]; intros n es q y Hdir Hnd Hq Hfile.
  - simpl in Hdir; injection Hdir as ->; simpl in Hnd, Hq |- *.
    destruct q as [|k q']; simpl in Hfile |- *; [discriminate|].
    destruct (String.eqb_spec k nm) as [->|Hk].
    + exfalso.
      destruct (FS.find_entry nm es) as [[x|es']|];
        [| now apply (Hnd es') | discriminate].
      destruct q'; [now apply Hq | discriminate].
    + rewrite find_entry_upd_other by exact Hk; exact Hfile.
  - simpl in Hdir; destruct n as [x|es0]; [discriminate|].
    destruct (FS.find_entry d es0) as [c|] eqn:Ec; [|discriminate].
    simpl in Hnd; rewrite Ec in Hnd.
    destruct q as [|k q']; simpl in Hfile |- *; [discriminate|].
    destruct (String.eqb_spec k d) as [->|Hk].
    + rewrite find_entry_upd_same, Ec; rewrite Ec in Hfile.
      apply (IH c es q' y Hdir Hnd); [|exact Hfile].
      intros ->; now apply Hq.
    + rewrite find_entry_upd_other by exact Hk; exact Hfile.
Qed.

Lemma canon_kept (root root' : node) :
  (forall q es, FS.lookup root q = Some (Dir es) ->
                exists es', FS.lookup root' q = Some (Dir es')) ->
  forall ps acc c,
    FS.canon root acc ps = Ok c -> FS.canon root' acc ps = Ok c.
Proof.
  intros Hdirs; induction ps as [|p ps IH]; intros acc c; simpl;
    [trivial|].
  destruct (FS.lookup root acc) as [[y|es]|] eqn:E; try discriminate.
  destruct (Hdirs acc es E) as [es' ->].
  destruct (String.eqb p ".."); [apply IH|].
  destruct (FS.NAME_MAX <? String.length p)%nat; [discriminate | apply IH].
Qed.

(** While the output file is open, whatever it holds, a regular file that is
    not the output file is what it was. *)
Lemma stat_file_kept (w w' : World) (out_path p : Path) (place : list string)
      (bytes data : list byte) :
  PathIO.open_w w out_path = Ok place ->
  fs w' = FS.set_file place bytes (fs w) ->
  cwd w' = cwd w ->
  PathIO.stat w p = Ok (File data) ->
  PathIO.resolve w p <> Ok place ->
  PathIO.stat w' p = Ok (File data).
Proof.
  intros Hopen Hfs Hcwd Hstat Hother.
  destruct (open_w_place w out_path place Hopen) as (_ & Hnd & Hplace).
  unfold PathIO.stat, PathIO.resolve, PathIO.abs_parts in *.
  rewrite Hfs, Hcwd.
  destruct (FS.canon (fs w) []
              match anchor p with
              | Relative => cwd w ++ parts p
              | _ => parts p
              end) as [cp|e] eqn:Hp; simpl in Hstat; [|discriminate].
  destruct (FS.lookup (fs w) cp) as [[y|es']|] eqn:El; try discriminate.
  injection Hstat as ->.
  destruct Hplace as [[-> [y Hy]] | (dirs & nm & es & -> & Hes)].
  - exfalso; rewrite Hy in Hp.
    destruct (match anchor p with
              | Relative => cwd w ++ parts p
              | _ => parts p
              end); simpl in Hp; [|discriminate].
    injection Hp as <-; now apply Hother.
  - pose proof (set_file_keeps_kinds dirs nm bytes (fs w) es Hes Hnd) as Hk.
    rewrite (canon_kept (fs w) _ (fun q es0 => proj1 (Hk q) es0) _ _ _ Hp).
    simpl.
    rewrite (lookup_file_kept dirs nm bytes (fs w) es cp data Hes Hnd);
      [reflexivity | congruence | exact El].
Qed.

(** A directory stays a directory. *)
Lemma stat_dir_kept (w w' : World) (out_path p : Path) (place : list string)
      (bytes : list byte) (es : list (string * node)) :
  PathIO.open_w w out_path = Ok place ->
  fs w' = FS.set_file place bytes (fs w) ->
  cwd w' = cwd w ->
  PathIO.stat w p = Ok (Dir es) ->
  exists es', PathIO.stat w' p = Ok (Dir es').
Proof.
  intros Hopen Hfs Hcwd Hstat.
  destruct (open_w_place w out_path place Hopen) as (_ & Hnd & Hplace).
  unfold PathIO.stat, PathIO.resolve, PathIO.abs_parts in *.
  rewrite Hfs, Hcwd.
  destruct (FS.canon (fs w) []
              match anchor p with
              | Relative => cwd w ++ parts p
              | _ => parts p
              end) as [cp|e] eqn:Hp; simpl in Hstat; [|discriminate].
  destruct (FS.lookup (fs w) cp) as [[y|es0]|] eqn:El; try discriminate.
  destruct Hplace as [[-> [y Hy]] | (dirs & nm & es1 & -> & Hes)].
  - exfalso; rewrite Hy in Hp, El.
    destruct (match anchor p with
              | Relative => cwd w ++ parts p
              | _ => parts p
              end); simpl in Hp; [|discriminate].
    injection Hp as <-; discriminate.
  - pose proof (set_file_keeps_kinds dirs nm bytes (fs w) es1 Hes Hnd) as Hk.
    rewrite (canon_kept (fs w) _ (fun q es2 => proj1 (Hk q) es2) _ _ _ Hp).
    simpl.
    destruct (proj1 (Hk cp) es0 El) as [es' ->]; now exists es'.
Qed.

(** ** The document writer *)

Lemma of_string_app (a b : string) :
  PyText.of_string (a ++ b) = PyText.of_string a ++ PyText.of_string b.
Proof.
  unfold PyText.of_string; induction a as [|c a IH]; simpl;
    [reflexivity | now rewrite IH].
Qed.

(** The section the loop writes is the one the format describes. *)
Lemma section_expected (w : World) (p rel : Path) (content : text) :
  PathIO.read_text w p = Ok content ->
  display_path w p = Ok rel ->
  expected_section w p = section p rel content.
Proof.
  intros Hr Hd; unfold expected_section, section, fenced_body.
  rewrite Hr, Hd, !of_string_app, <- !app_assoc; reflexivity.
Qed.

Lemma expected_section_skipped (w : World) (p : Path) :
  decode_fails w p = true -> expected_section w p = [].
Proof.
  unfold decode_fails, expected_section.
  now destruct (PathIO.read_text w p).
Qed.

(** What the loop leaves alone. *)
Lemma write_sections_frame (place : list string) (files : list Path) :
  forall (w : World) (out : text),
    let w' := fst (fst (write_sections w place files out)) in
    cwd w' = cwd w /\ utcnow w' = utcnow w /\ stdout w' = stdout w
    /\ flushed w' = flushed w
    /\ (fs w' = fs w \/ exists bytes, fs w' = FS.set_file place bytes (fs w)).
Proof.
  induction files as [|p files IH]; intros w out; cbn [write_sections];
    [cbn; now repeat split; try left|].
  set (w1 := set_fs w _).
  assert (Hstep : forall w2 : World,
             cwd w2 = cwd w1 -> utcnow w2 = utcnow w1 ->
             stdout w2 = stdout w1 -> flushed w2 = flushed w1 ->
             (fs w2 = fs w1 \/ exists bytes,
                 fs w2 = FS.set_file place bytes (fs w1)) ->
             cwd w2 = cwd w /\ utcnow w2 = utcnow w /\ stdout w2 = stdout w
             /\ flushed w2 = flushed w
             /\ (fs w2 = fs w
                 \/ exists bytes, fs w2 = FS.set_file place bytes (fs w))).
  { intros w2 -> -> -> -> Hfs; repeat split; right.
    destruct Hfs as [-> | [bytes ->]]; unfold w1; cbn [set_fs fs];
      [eauto | rewrite set_file_twice; eauto]. }
  destruct (PathIO.read_text w1 p) as [content|e].
  - destruct (display_path w1 p) as [rel|e].
    + destruct (IH w1 (out ++ section p rel content)) as (H1 & H2 & H3 & H4 & H5).
      now apply Hstep.
    + cbn [fst]; apply Hstep; auto.
  - destruct e; try (cbn [fst]; apply Hstep; now auto).
    destruct (IH (print_stderr w1 (warning p)) out) as (H1 & H2 & H3 & H4 & H5).
    now apply Hstep.
Qed.

(** The errors of path resolution. *)
Lemma canon_errors (root : node) (ps : list string) :
  forall acc e,
    FS.canon root acc ps = Raise e ->
    e = FileNotFoundError \/ e = NotADirectoryError \/ e = OSError.
Proof.
  induction ps as [|p ps IH]; intros acc e; simpl; [discriminate|].
  destruct (FS.lookup root acc) as [[y|es]|];
    [intros [= <-]; auto | | intros [= <-]; auto].
  destruct (String.eqb p ".."); [apply IH|].
  destruct (FS.NAME_MAX <? String.length p)%nat;
    [intros [= <-]; auto | apply IH].
Qed.

Lemma stat_errors (w : World) (p : Path) (e : exn) :
  PathIO.stat w p = Raise e ->
  e = FileNotFoundError \/ e = NotADirectoryError \/ e = OSError.
Proof.
  unfold PathIO.stat, PathIO.resolve.
  destruct (FS.canon (fs w) [] (PathIO.abs_parts w p)) as [c|e'] eqn:Hc; simpl.
  - destruct (FS.lookup (fs w) c); [discriminate | intros [= <-]; auto].
  - intros [= <-]; exact (canon_errors _ _ _ _ Hc).
Qed.

(** A file the loop reads or skips is a regular file. *)
Lemma decode_fails_file (w : World) (p : Path) :
  decode_fails w p = true -> exists data, PathIO.stat w p = Ok (File data).
Proof.
  unfold decode_fails, PathIO.read_text.
  destruct (PathIO.stat w p) as [[data|es]|e] eqn:Hstat; simpl;
    try discriminate.
  - intros _; now exists data.
  - destruct (stat_errors w p e Hstat) as [-> | [-> | ->]]; discriminate.
Qed.

Lemma read_text_file (w : World) (p : Path) (content : text) :
  PathIO.read_text w p = Ok content ->
  exists data, PathIO.stat w p = Ok (File data).
Proof.
  unfold PathIO.read_text.
  destruct (PathIO.stat w p) as [[data|es]|e]; simpl; try discriminate.
  intros _; now exists data.
Qed.

(** Reading and showing a regular file other than the output file gives the
    same while the output file is open as before. *)
Lemma reads_kept (w w' : World) (out_path p : Path) (place : list string)
      (bytes data : list byte) :
  PathIO.open_w w out_path = Ok place ->
  fs w' = FS.set_file place bytes (fs w) ->
  cwd w' = cwd w ->
  PathIO.stat w p = Ok (File data) ->
  PathIO.resolve w p <> Ok place ->
  PathIO.read_text w' p = PathIO.read_text w p
  /\ display_path w' p = display_path w p.
Proof.
  intros Hopen Hfs Hcwd Hstat Hother.
  pose proof (stat_file_kept w w' out_path p place bytes data
                Hopen Hfs Hcwd Hstat Hother) as Hstat'.
  unfold PathIO.read_text, display_path, PathIO.exists_, PathIO.getcwd.
  now rewrite Hstat, Hstat', Hcwd.
Qed.

(** Best effort: when every file of the list is a file other than the output
    file that either fails to decode or can be read and shown, the loop runs
    to its end, warns about the former and writes the sections of the
    latter. *)
Lemma write_sections_best_effort (w : World) (out_path : Path)
      (place : list string) (files : list Path) :
  PathIO.open_w w out_path = Ok place ->
  (forall p, In p files -> PathIO.resolve w p <> Ok place) ->
  (forall p, In p files ->
             decode_fails w p = true
             \/ exists content rel,
                  PathIO.read_text w p = Ok content
                  /\ display_path w p = Ok rel) ->
  forall (bytes : list byte) (errs : list string) (out : text),
  exists bytes',
    write_sections
      (mkWorld (FS.set_file place bytes (fs w)) (cwd w) (utcnow w) (stdout w)
               errs (flushed w))
      place files out
    = (mkWorld (FS.set_file place bytes' (fs w)) (cwd w) (utcnow w) (stdout w)
               (errs ++ map warning (filter (decode_fails w) files))
               (flushed w),
       out ++ flat_map (expected_section w)
                       (filter (fun p => negb (decode_fails w p)) files),
       None).
Proof.
  intros Hopen; induction files as [|p files IH]; intros Hother Hok bytes errs out.
  - exists bytes; simpl; now rewrite !app_nil_r.
  - assert (Hother' : forall q, In q files -> PathIO.resolve w q <> Ok place)
      by (intros q Hq; apply Hother; now right).
    assert (Hok' : forall q, In q files ->
                     decode_fails w q = true
                     \/ exists content rel,
                          PathIO.read_text w q = Ok content
                          /\ display_path w q = Ok rel)
      by (intros q Hq; apply Hok; now right).
    specialize (IH Hother' Hok').
    specialize (Hother p (or_introl eq_refl)).
    specialize (Hok p (or_introl eq_refl)).
    cbn [write_sections filter].
    set (w0 := mkWorld (FS.set_file place bytes (fs w)) _ _ _ _ _).
    set (now_there := on_disk w0 out).
    set (w1 := mkWorld (FS.set_file place now_there (fs w)) (cwd w) (utcnow w)
                       (stdout w) errs (flushed w)).
    replace (set_fs w0 (FS.set_file place now_there (fs w0))) with w1
      by (unfold w1, w0, set_fs; cbn [fs cwd utcnow stdout stderr flushed];
          now rewrite set_file_twice).
    assert (Hreads : forall data, PathIO.stat w p = Ok (File data) ->
               PathIO.read_text w1 p = PathIO.read_text w p
               /\ display_path w1 p = display_path w p)
      by (intros data Hstat;
          exact (reads_kept w w1 out_path p place now_there data
                            Hopen eq_refl eq_refl Hstat Hother)).
    destruct Hok as [Hd | (content & rel & Hr & Hrel)].
    + destruct (decode_fails_file w p Hd) as [data Hstat].
      destruct (Hreads data Hstat) as [-> _].
      rewrite Hd; unfold decode_fails in Hd.
      destruct (PathIO.read_text w p) as [c|e]; [discriminate|].
      destruct e; try discriminate.
      unfold print_stderr, w1; cbn [fs cwd utcnow stdout stderr flushed negb].
      destruct (IH now_there (errs ++ [warning p]) out) as [bytes' ->].
      exists bytes'; cbn [map]; now rewrite <- app_assoc.
    + destruct (read_text_file w p content Hr) as [data Hstat].
      destruct (Hreads data Hstat) as [-> ->].
      assert (Hd : decode_fails w p = false)
        by (unfold decode_fails; now rewrite Hr).
      rewrite Hr, Hrel, Hd; cbn [negb flat_map]; unfold w1.
      destruct (IH now_there errs (out ++ section p rel content))
        as [bytes' ->].
      exists bytes'.
      now rewrite (section_expected w p rel content Hr Hrel), <- app_assoc.
Qed.




(** C6: when [write_markdown] returns, the one line it has added to standard
    output names the output path and the length of the list it was given,
    whatever number of sections the loop wrote. *)
Theorem completion_message_counts_given_files
        (w w' : World) (files : list Path) (out_path : Path) :
  write_markdown w files out_path = (w', None) ->
  stdout w'
  = stdout w
    ++ [("Wrote " ++ PurePath.str out_path ++ " with "
         ++ PyStr.of_nat (List.length files) ++ " files.")%string].
Proof.
  unfold write_markdown.
  destruct (PathIO.open_w w out_path) as [place|e]; [|discriminate].
  pose proof (write_sections_frame place files
                (set_fs w (FS.set_file place [] (fs w))) (header w)) as Hf.
  destruct (write_sections _ place files (header w)) as [[w2 out] [e|]];
    [discriminate|].
  simpl in Hf; destruct Hf as (_ & _ & Hout & _).
  intros [= <-]; simpl; now rewrite Hout.
Qed.

Lemma completion_message_counts_given_files_witness :
  let w := Sample.world in
  let files :=
    [mkPath Root ["home"; "u"; "proj"; "vitest.config.ts"];
     mkPath Root ["home"; "u"; "proj"; "worker"; "src"; "index.ts"];
     mkPath Root ["home"; "u"; "proj"; "worker"; "src"; "lib"; "Util.tsx"];
     mkPath Root ["home"; "u"; "proj"; "worker"; "src"; "logo.ts"];
     mkPath Root ["home"; "u"; "proj"; "wrangler.toml"]] in
  let w' := fst (write_markdown w files Sample.out_md) in
  find_files w Sample.proj true = Ok files
  /\ write_markdown w files Sample.out_md = (w', None)
  /\ List.length files = 5
  /\ List.length (filter (fun p => negb (decode_fails w p)) files) = 4
  /\ stdout w' = ["Wrote out.md with 5 files."].
Proof.
  intros w files w'.
  assert (Hrun : write_markdown w files Sample.out_md = (w', None))
    by (vm_compute; reflexivity).
  split; [vm_compute; reflexivity|].
  split; [exact Hrun|]; split; [reflexivity|]; split; [reflexivity|].
  exact (completion_message_counts_given_files w w' files Sample.out_md Hrun).
Defined.

(** ** The entry point *)

(** C3: when the locator finds nothing, [main] prints its message to the
    error stream and returns 2; [write_markdown] is not run, so the file
    system is what it was and no output file has been created. *)
Theorem no_candidates_exit_status (w : World) (args : Namespace) :
  find_files w (root args) (skip_dot_types args) = Ok [] ->
  main w args = (print_stderr w "No files found to include.", Ok 2%Z)
  /\ fs (fst (main w args)) = fs w
  /\ stdout (fst (main w args)) = stdout w.
Proof.
  intros Hnone; unfold main; rewrite Hnone; now repeat split.
Qed.

Lemma no_candidates_exit_status_witness :
  let args := mkNamespace Sample.empty Sample.out_md true in
  find_files Sample.world (root args) (skip_dot_types args) = Ok []
  /\ snd (main Sample.world args) = Ok 2%Z
  /\ FS.lookup (fs (fst (main Sample.world args)))
               ["home"; "u"; "proj"; "out.md"] = None.
Proof.
  intros args.
  destruct (no_candidates_exit_status Sample.world args eq_refl)
    as (Hmain & Hfs & _).
  split; [reflexivity|]; split; [now rewrite Hmain | now rewrite Hfs].
Defined.

(** C2: the display path is [relative_to] the working directory for every
    path that exists, also when the path does not lie under the working
    directory.  With [--root .] the files found are relative paths, and with
    a root outside the working directory they are absolute paths elsewhere:
    in both runs [relative_to] raises [ValueError] and ends the program. *)
Theorem display_path_raises_value_error :
  let found := mkPath Relative ["vitest.config.ts"] in
  let elsewhere := mkPath Root ["home"; "u"; "conf"; "wrangler.toml"] in
  ((exists files,
      find_files Sample.world Sample.here true = Ok files /\ In found files)
   /\ PathIO.read_text Sample.world found = Ok (PyText.of_string "cfg")
   /\ display_path Sample.world found = Raise ValueError
   /\ snd (main Sample.world (mkNamespace Sample.here Sample.out_md true))
      = Raise ValueError)
  /\ ((exists files,
         find_files Sample.world Sample.conf true = Ok files
         /\ In elsewhere files)
      /\ display_path Sample.world elsewhere = Raise ValueError
      /\ snd (main Sample.world (mkNamespace Sample.conf Sample.out_md true))
         = Raise ValueError).
Proof.
  intros found elsewhere; repeat split;
    try (eexists; split; [vm_compute; reflexivity | simpl; auto]);
    vm_compute; reflexivity.
Qed.

(** ** The fenced block *)

Lemma dropwhile_split (f : N -> bool) (t : text) :
  exists pre, t = pre ++ PyText.dropwhile f t /\ forallb f pre = true.
Proof.
  induction t as [|c t [pre [Ht Hpre]]]; simpl.
  - exists []; now split.
  - destruct (f c) eqn:E.
    + exists (c :: pre); simpl; rewrite E, Hpre.
      split; [now f_equal | reflexivity].
    + exists []; now split.
Qed.

Lemma dropwhile_head (f : N -> bool) (t r : text) (c : N) :
  PyText.dropwhile f t = c :: r -> f c = false.
Proof.
  induction t as [|d t IH]; simpl; [discriminate|].
  destruct (f d) eqn:E; [exact IH | now intros [= -> _]].
Qed.

Lemma forallb_rev (f : N -> bool) (t : text) :
  forallb f t = true -> forallb f (rev t) = true.
Proof.
  rewrite !forallb_forall; intros H x Hx; apply H; now apply in_rev.
Qed.

(** [rstrip] removes a run of white space from the end ... *)
Lemma rstrip_split (t : text) :
  exists ws, t = PyText.rstrip t ++ ws /\ forallb PyText.isspace ws = true.
Proof.
  unfold PyText.rstrip.
  destruct (dropwhile_split PyText.isspace (rev t)) as [pre [Ht Hpre]].
  exists (rev pre); split; [|now apply forallb_rev].
  rewrite <- rev_app_distr, <- Ht; symmetry; apply rev_involutive.
Qed.

(** ... and all of it. *)
Lemma rstrip_no_trailing_whitespace (t : text) :
  no_trailing_whitespace (PyText.rstrip t) = true.
Proof.
  unfold no_trailing_whitespace, PyText.rstrip; rewrite rev_involutive.
  destruct (PyText.dropwhile PyText.isspace (rev t)) as [|c r] eqn:E;
    [reflexivity|].
  now rewrite (dropwhile_head _ _ _ _ E).
Qed.

Lemma rstrip_fixed (t : text) :
  no_trailing_whitespace t = true -> PyText.rstrip t = t.
Proof.
  unfold no_trailing_whitespace, PyText.rstrip; intros H.
  rewrite <- (rev_involutive t) at 2; f_equal.
  destruct (rev t) as [|c r]; [reflexivity|]; simpl.
  now destruct (PyText.isspace c).
Qed.

(** C9, as the code has it: for a file that decodes, the block between the
    fences is the content without its trailing white space, plus one newline.
    What is removed is white space only, what is left does not end in white
    space (so the body ends in exactly one newline), and when the content has
    no trailing white space at all the body is the content plus one
    newline.  The content is what the iteration reads: [w1] is the world at
    that point, with the part of [out] that has reached the output file. *)
Theorem fenced_block_body
        (w : World) (place : list string) (path rel : Path)
        (content out : text) :
  let w1 := set_fs w (FS.set_file place (on_disk w out) (fs w)) in
  PathIO.read_text w1 path = Ok content ->
  display_path w1 path = Ok rel ->
  (exists before,
     write_sections w place [path] out
     = (w1,
        out ++ before
        ++ PyText.of_string ("```" ++ file_language_for path ++ nl)
        ++ fenced_body content
        ++ PyText.of_string ("```" ++ nl ++ nl),
        None))
  /\ fenced_body content = PyText.rstrip content ++ [10%N]
  /\ (exists ws, content = PyText.rstrip content ++ ws
                 /\ forallb PyText.isspace ws = true)
  /\ no_trailing_whitespace (PyText.rstrip content) = true
  /\ (no_trailing_whitespace content = true ->
      fenced_body content = content ++ [10%N]).
Proof.
  intros w1 Hread Hrel; repeat split.
  - exists (PyText.of_string ("---" ++ nl ++ nl)
            ++ PyText.of_string ("## `" ++ PurePath.str rel ++ "`" ++ nl ++ nl)
            ++ PyText.of_string
                 ("_Size: "
                  ++ PyStr.of_nat (List.length (PyText.splitlines content))
                  ++ " lines_  " ++ nl ++ nl)).
    cbn [write_sections]; fold w1; rewrite Hread, Hrel; unfold section.
    now rewrite <- !app_assoc.
  - apply rstrip_split.
  - apply rstrip_no_trailing_whitespace.
  - intros H; unfold fenced_body; now rewrite (rstrip_fixed _ H).
Qed.

Lemma fenced_block_body_witness :
  let w := Sample.world in
  let place := ["home"; "u"; "proj"; "out.md"] in
  let w1 := set_fs w (FS.set_file place (on_disk w (header w)) (fs w)) in
  let path := mkPath Root ["home"; "u"; "proj"; "vitest.config.ts"] in
  let content := PyText.of_string "cfg" in
  PathIO.read_text w1 path = Ok content
  /\ display_path w1 path = Ok (mkPath Relative ["vitest.config.ts"])
  /\ no_trailing_whitespace content = true
  /\ fenced_body content = PyText.of_string ("cfg" ++ nl).
Proof.
  intros w place w1 path content.
  assert (Hread : PathIO.read_text w1 path = Ok content)
    by (vm_compute; reflexivity).
  assert (Hrel : display_path w1 path = Ok (mkPath Relative ["vitest.config.ts"]))
    by (vm_compute; reflexivity).
  destruct (fenced_block_body w place path (mkPath Relative ["vitest.config.ts"])
              content (header w) Hread Hrel) as (_ & _ & _ & _ & Hbody).
  split; [exact Hread|]; split; [exact Hrel|]; split; [reflexivity|].
  exact (Hbody eq_refl).
Defined.

(** C9, as the claim has it, fails: a content without trailing blank lines
    may still end in a line break or in blanks, which [rstrip] removes.  The
    body of ["x = 1;\n"] is the content itself, with no newline added, and
    the body of ["x "] (the sample's [Util.tsx]) has lost the blank. *)
Lemma fenced_body_not_content_plus_newline :
  let ended := PyText.of_string ("x = 1;" ++ nl) in
  let util :=
    mkPath Root ["home"; "u"; "proj"; "worker"; "src"; "lib"; "Util.tsx"] in
  let blank := PyText.of_string "x " in
  (no_trailing_blank_lines ended = true
   /\ fenced_body ended = ended
   /\ fenced_body ended <> ended ++ PyText.of_string nl)
  /\ (PathIO.read_text Sample.world util = Ok blank
      /\ no_trailing_blank_lines blank = true
      /\ fenced_body blank = PyText.of_string ("x" ++ nl)
      /\ fenced_body blank <> blank ++ PyText.of_string nl).
Proof.
  intros ended util blank; repeat split; try reflexivity;
    vm_compute; discriminate.
Qed.

(** ** The sample run *)

Example sample_classification :
  map (fun nm => file_language_for (mkPath Relative [nm]))
      ["wrangler.toml"; "index.ts"; "App.TSX"; "env.d.ts"; "README.md";
       "Makefile"; ".ts"; "notes."]
  = ["toml"; "ts"; "ts"; "ts"; "text"; "text"; "text"; "text"].
Proof. reflexivity. Qed.

Example sample_decoding :
  Utf8.decode [xc3; xa9; x0d; x0a] = Some [233%N; 13%N; 10%N]
  /\ Utf8.decode [xc0; x80] = None
  /\ Utf8.decode [xed; xa0; x80] = None
  /\ Utf8.decode [xff; x00] = None
  /\ Utf8.encode [233%N; 8364%N] = [xc3; xa9; xe2; x82; xac].
Proof. repeat split. Qed.

Example sample_numbers :
  map PyStr.of_nat [0; 7; 10; 123] = ["0"; "7"; "10"; "123"].
Proof. reflexivity. Qed.

Example sample_lines :
  map (fun s => List.length (PyText.splitlines (PyText.of_string s)))
      [""; "a"; ("a" ++ nl)%string; ("a" ++ nl ++ nl ++ "b")%string; nl]
  = [0; 1; 1; 3; 1].
Proof. reflexivity. Qed.

Example sample_paths :
  map PurePath.str
      [mkPath Relative []; mkPath Relative ["a"; "b"]; mkPath Root [];
       mkPath Root ["a"; "b"]; mkPath DoubleRoot ["a"; "b"]]
  = ["."; "a/b"; "/"; "/a/b"; "//a/b"]
  /\ PurePath.relative_to (mkPath Root ["a"; "b"]) (mkPath Root ["a"])
     = Ok (mkPath Relative ["b"])
  /\ PurePath.relative_to (mkPath DoubleRoot ["a"; "b"]) (mkPath Root ["a"])
     = Raise ValueError
  /\ PurePath.relative_to (mkPath Relative ["a"; "b"]) (mkPath Root ["a"])
     = Raise ValueError.
Proof. repeat split. Qed.

Example sample_document :
  let w := Sample.world in
  let '(w', status) := main w (mkNamespace Sample.proj Sample.out_md true) in
  status = Ok 0%Z
  /\ Sample.file_string w' ["home"; "u"; "proj"; "out.md"]
     = Some ("# Combined source files" ++ nl ++ nl ++
             "Generated: 2024-01-01T00:00:00Z" ++ nl ++ nl ++
             "---" ++ nl ++ nl ++
             "## `vitest.config.ts`" ++ nl ++ nl ++
             "_Size: 1 lines_  " ++ nl ++ nl ++
             "```ts" ++ nl ++ "cfg" ++ nl ++ "```" ++ nl ++ nl ++
             "---" ++ nl ++ nl ++
             "## `worker/src/index.ts`" ++ nl ++ nl ++
             "_Size: 3 lines_  " ++ nl ++ nl ++
             "```ts" ++ nl ++ "a" ++ nl ++ "b" ++ nl ++ "```" ++ nl ++ nl ++
             "---" ++ nl ++ nl ++
             "## `worker/src/lib/Util.tsx`" ++ nl ++ nl ++
             "_Size: 1 lines_  " ++ nl ++ nl ++
             "```ts" ++ nl ++ "x" ++ nl ++ "```" ++ nl ++ nl ++
             "---" ++ nl ++ nl ++
             "## `wrangler.toml`" ++ nl ++ nl ++
             "_Size: 1 lines_  " ++ nl ++ nl ++
             "```toml" ++ nl ++ "name = 1" ++ nl ++ "```" ++ nl ++ nl)%string.
Proof. vm_compute; split; reflexivity. Qed.

(** A run whose output path is one of the files it reads: what it reads
    there is what has reached the file.  With a handle that passes on whole
    blocks nothing has, and the section is that of an empty file; with a
    handle that keeps nothing back the run reads its own header. *)
Example sample_reads_its_own_output :
  let args :=
    mkNamespace Sample.conf (mkPath Root ["home"; "u"; "conf"; "wrangler.toml"])
                true in
  let written w :=
    Sample.file_string (fst (main w args)) ["home"; "u"; "conf"; "wrangler.toml"] in
  let top :=
    ("# Combined source files" ++ nl ++ nl ++
     "Generated: 2024-01-01T00:00:00Z" ++ nl ++ nl)%string in
  let unbuffered :=
    mkWorld Sample.tree ["home"; "u"] "2024-01-01T00:00:00" [] []
            Sample.unbuffered in
  let in_blocks :=
    mkWorld Sample.tree ["home"; "u"] "2024-01-01T00:00:00" [] []
            Sample.in_blocks in
  written in_blocks
  = Some (top ++
          "---" ++ nl ++ nl ++
          "## `conf/wrangler.toml`" ++ nl ++ nl ++
          "_Size: 0 lines_  " ++ nl ++ nl ++
          "```toml" ++ nl ++ nl ++ "```" ++ nl ++ nl)%string
  /\ written unbuffered
     = Some (top ++
             "---" ++ nl ++ nl ++
             "## `conf/wrangler.toml`" ++ nl ++ nl ++
             "_Size: 4 lines_  " ++ nl ++ nl ++
             "```toml" ++ nl ++
             "# Combined source files" ++ nl ++ nl ++
             "Generated: 2024-01-01T00:00:00Z" ++ nl ++
             "```" ++ nl ++ nl)%string.
Proof. vm_compute; split; reflexivity. Qed.

(** * Further properties *)

(** ** The order on strings *)

Lemma leb_refl (s : string) : String.leb s s = true.
Proof.
  unfold String.leb; induction s as [|c s IH]; simpl; [reflexivity|].
  unfold Ascii.compare; now rewrite N.compare_refl.
Qed.

Lemma leb_trans (a b c : string) :
  String.leb a b = true -> String.leb b c = true -> String.leb a c = true.
Proof.
  unfold String.leb; revert b c.
  induction a as [|x a IH]; intros [|y b] [|z c]; simpl; try easy.
  unfold Ascii.compare.
  destruct (N.compare_spec (N_of_ascii x) (N_of_ascii y)) as [Exy|Lxy|Gxy];
    destruct (N.compare_spec (N_of_ascii y) (N_of_ascii z)) as [Eyz|Lyz|Gyz];
    destruct (N.compare_spec (N_of_ascii x) (N_of_ascii z)) as [Exz|Lxz|Gxz];
    try easy; try lia.
  apply IH.
Qed.

(** ** More on sorting *)

Section SortedMore.

Variable key : Path -> string.

Lemma sorted_strongly (l : list Path) :
  StronglySorted (fun p q => PyStr.le (key p) (key q)) (sorted key l).
Proof.
  apply Sorted_StronglySorted; [|apply sorted_is_sorted].
  intros p q r; apply leb_trans.
Qed.

Lemma insert_by_below (x : Path) (l : list Path) :
  Forall (fun y => PyStr.le (key x) (key y)) l -> insert_by key x l = x :: l.
Proof.
  destruct 1 as [|y l Hy _]; simpl; [reflexivity|].
  unfold PyStr.le in Hy; now rewrite Hy.
Qed.

Lemma filter_insert_by (f : Path -> bool) (x : Path) (l : list Path) :
  StronglySorted (fun p q => PyStr.le (key p) (key q)) l ->
  filter f (insert_by key x l)
  = if f x then insert_by key x (filter f l) else filter f l.
Proof.
  induction 1 as [|y l Hs IH Hy]; simpl.
  - now destruct (f x).
  - destruct (String.leb (key x) (key y)) eqn:E; simpl.
    + destruct (f x); [|reflexivity].
      change (if f y then y :: filter f l else filter f l)
        with (filter f (y :: l)).
      symmetry; apply insert_by_below.
      assert (Hall : Forall (fun z => PyStr.le (key x) (key z)) (y :: l)).
      { constructor; [exact E|].
        rewrite Forall_forall in Hy |- *; intros z Hz.
        apply (leb_trans _ (key y)); [exact E | now apply Hy]. }
      rewrite Forall_forall in Hall |- *; intros z Hz.
      apply Hall; apply filter_In in Hz as [Hz _]; exact Hz.
    + rewrite IH; destruct (f x), (f y); simpl; try reflexivity.
      now rewrite E.
Qed.

(** Filtering commutes with the sort: the sort is stable. *)
Lemma filter_sorted (f : Path -> bool) (l : list Path) :
  filter f (sorted key l) = sorted key (filter f l).
Proof.
  induction l as [|x l IH]; simpl; [reflexivity|].
  rewrite filter_insert_by by apply sorted_strongly.
  rewrite IH; now destruct (f x).
Qed.

Lemma sorted_fixed (l : list Path) :
  (forall x y, In x l -> In y l -> PyStr.le (key x) (key y)) ->
  sorted key l = l.
Proof.
  induction l as [|x l IH]; intros H; simpl; [reflexivity|].
  rewrite IH by (intros a b Ha Hb; apply H; now right).
  apply insert_by_below, Forall_forall; intros y Hy.
  apply H; [now left | now right].
Qed.

Lemma insert_by_nodup (x : Path) (l : list Path) :
  ~ In x l -> NoDup l -> NoDup (insert_by key x l).
Proof.
  induction l as [|y l IH]; intros Hx Hl; simpl.
  - now repeat constructor.
  - destruct (String.leb (key x) (key y)); [now constructor|].
    inversion_clear Hl as [|? ? Hy Hl'].
    constructor.
    + rewrite insert_by_in; intros [-> | Hin]; [apply Hx; now left | now apply Hy].
    + apply IH; [intros Hin; apply Hx; now right | assumption].
Qed.

Lemma sorted_nodup (l : list Path) : NoDup l -> NoDup (sorted key l).
Proof.
  induction 1 as [|x l Hx Hl IH]; simpl; [constructor|].
  apply insert_by_nodup; [now rewrite sorted_in | assumption].
Qed.

End SortedMore.

(** ** More on the file locator *)

(** Whether [find_files] returns or raises does not depend on the flag. *)
Lemma find_files_outcome (w : World) (r : Path) (skip : bool) :
  find_files w r skip
  = match find_files w r false with
    | Ok _ => Ok (sorted sort_key (candidates w r skip))
    | Raise e => Raise e
    end.
Proof.
  pose proof (find_files_candidates w r skip) as Hc.
  unfold find_files in *.
  destruct (PathIO.exists_ w _) as [there|e]; cbn [bind] in *; [|reflexivity].
  destruct (if there then PathIO.is_dir w _ else Ok false) as [scan|e];
    cbn [bind] in *; [|reflexivity].
  destruct (find_extras w r ["wrangler.toml"; "vitest.config.ts"])
    as [extras|e]; cbn [bind] in *; [|reflexivity].
  f_equal; exact (Hc _ eq_refl).
Qed.

(** The recursive glob yields exactly the entries below the directory whose
    name matches. *)
Lemma rglob_iff (ext : string) (rel : list string) :
  forall d : node,
    In rel (PathIO.rglob ext d)
    <-> under d rel /\ PyStr.endswith (last rel "") ext = true.
Proof.
  split; [|intros [Hu He]; now apply rglob_under].
  revert d; induction rel as [|nm rel IH]; intros [data|es]; simpl;
    try contradiction.
  - intros H; apply in_app_or in H as [H|H].
    + apply in_map_iff in H as [e [He _]]; discriminate.
    + apply in_flat_map in H as [e [_ H]].
      apply in_map_iff in H as [x [Hx _]]; discriminate.
  - intros H; apply in_app_or in H as [H|H].
    + apply in_map_iff in H as [[k c] [He Hin]]; simpl in He.
      injection He as -> <-.
      apply filter_In in Hin as [Hin Hend]; split; [|exact Hend].
      now apply (under_entry es nm c).
    + apply in_flat_map in H as [[k c] [Hin H]]; simpl in H.
      apply in_map_iff in H as [x [Hx Hrel]].
      injection Hx as -> ->.
      destruct (IH c Hrel) as [Hu Hend].
      split; [now apply (under_subdir es nm c) |].
      destruct rel; [now apply under_nonempty in Hu | exact Hend].
Qed.

Lemma filter_flat_map (A : Type) (f : Path -> bool) (g : A -> list Path)
      (l : list A) :
  filter f (flat_map g l) = flat_map (fun a => filter f (g a)) l.
Proof.
  induction l as [|a l IH]; simpl; [reflexivity|].
  now rewrite filter_app, IH.
Qed.

Lemma filter_filter (f g : Path -> bool) (l : list Path) :
  filter f (filter g l) = filter (fun p => g p && f p) l.
Proof.
  induction l as [|a l IH]; simpl; [reflexivity|].
  destruct (g a); simpl; [destruct (f a)|]; now rewrite IH.
Qed.

(** X1: the flag changes nothing but the presence of the declaration files.
    [find_files] raises with the flag exactly when it raises without, the
    same error; when it returns, dropping the paths whose name ends with
    [.d.ts] from the result without the flag gives the result with the flag,
    in the same order. *)
Theorem skip_flag_only_drops_declaration_files (w : World) (r : Path) :
  find_files w r true
  = match find_files w r false with
    | Ok files =>
      Ok (filter (fun p => negb (PyStr.endswith (PurePath.name p) ".d.ts"))
                 files)
    | Raise e => Raise e
    end.
Proof.
  rewrite (find_files_outcome w r true).
  destruct (find_files w r false) as [files|e] eqn:E; [|reflexivity].
  rewrite (find_files_candidates _ _ _ _ E), filter_sorted; do 2 f_equal.
  unfold candidates; rewrite filter_app; f_equal.
  - destruct (is_present w _ && is_present_dir w _); [|reflexivity].
    rewrite filter_flat_map; apply flat_map_ext; intros ext.
    rewrite filter_filter; apply filter_ext; intros p; reflexivity.
  - simpl.
    destruct (is_present w (PurePath.joinpath r "wrangler.toml"));
      destruct (is_present w (PurePath.joinpath r "vitest.config.ts"));
      simpl; rewrite ?name_joinpath; reflexivity.
Qed.

(** X2: the sort is stable.  Among the results that have one and the same
    sort key (paths that differ in letter case only) the order is the one in
    which the scan produced them. *)
Theorem find_files_keeps_scan_order_of_ties
        (w : World) (r : Path) (skip : bool) (files : list Path) (k : string) :
  find_files w r skip = Ok files ->
  filter (fun p => String.eqb (sort_key p) k) files
  = filter (fun p => String.eqb (sort_key p) k) (candidates w r skip).
Proof.
  intros Hfiles.
  rewrite (find_files_candidates _ _ _ _ Hfiles), filter_sorted.
  apply sorted_fixed; intros x y Hx Hy.
  apply filter_In in Hx as [_ Hx]; apply filter_In in Hy as [_ Hy].
  apply String.eqb_eq in Hx, Hy; unfold PyStr.le.
  rewrite Hx, Hy; apply leb_refl.
Qed.

Lemma name_below (a : Anchor) (ps rel : list string) :
  rel <> [] -> PurePath.name (mkPath a (ps ++ rel)) = last rel "".
Proof. intros H; unfold PurePath.name; simpl; now apply last_app_nonempty. Qed.

Lemma glob_iff (w : World) (wd p : Path) (ext : string) :
  In p (PathIO.glob w wd ext)
  <-> exists d rel,
        PathIO.stat w wd = Ok d /\ under d rel
        /\ p = mkPath (anchor wd) (parts wd ++ rel)
        /\ PyStr.endswith (PurePath.name p) ext = true.
Proof.
  unfold PathIO.glob; split.
  - destruct (PathIO.stat w wd) as [d|e]; [|contradiction].
    intros H; apply in_map_iff in H as [rel [<- Hrel]].
    apply rglob_iff in Hrel as [Hu He].
    exists d, rel; repeat split; try assumption.
    now rewrite (name_below _ _ _ (under_nonempty _ _ Hu)).
  - intros (d & rel & Hs & Hu & -> & He); rewrite Hs.
    apply (in_map (fun rel => mkPath (anchor wd) (parts wd ++ rel))).
    apply rglob_iff; split; [assumption|].
    now rewrite (name_below _ _ _ (under_nonempty _ _ Hu)) in He.
Qed.

Lemma scan_guard (w : World) (wd : Path) (d : node) (rel : list string) :
  PathIO.stat w wd = Ok d -> under d rel ->
  is_present w wd && is_present_dir w wd = true.
Proof.
  intros Hs Hu; unfold is_present, is_present_dir; rewrite Hs.
  now destruct Hu.
Qed.

Lemma exists_true_present (w : World) (p : Path) :
  PathIO.exists_ w p = Ok true <-> is_present w p = true.
Proof.
  unfold PathIO.exists_, is_present.
  destruct (PathIO.stat w p) as [n|e]; [now split|].
  destruct (PathIO.ignore_error e); split; discriminate.
Qed.

(** The candidates, as a set. *)
Lemma candidates_in_iff (w : World) (r : Path) (skip : bool) (p : Path) :
  let worker_dir := PurePath.joinpath (PurePath.joinpath r "worker") "src" in
  In p (candidates w r skip)
  <-> (exists d rel,
         PathIO.stat w worker_dir = Ok d /\ under d rel
         /\ p = mkPath (anchor r) (parts worker_dir ++ rel)
         /\ (PyStr.endswith (PurePath.name p) ".ts" = true
             \/ PyStr.endswith (PurePath.name p) ".tsx" = true)
         /\ skip && PyStr.endswith (PurePath.name p) ".d.ts" = false)
      \/ ((p = PurePath.joinpath r "wrangler.toml"
           \/ p = PurePath.joinpath r "vitest.config.ts")
          /\ PathIO.exists_ w p = Ok true).
Proof.
  intros worker_dir.
  unfold candidates; fold worker_dir; rewrite in_app_iff.
  split; (intros [H|H]; [left | right]); revert H.
  - destruct (is_present w worker_dir && is_present_dir w worker_dir);
      [|contradiction].
    intros H; apply in_flat_map in H as [ext [Hext H]].
    apply filter_In in H as [H Hskip]; apply negb_true_iff in Hskip.
    apply glob_iff in H as (d & rel & Hs & Hu & -> & He).
    exists d, rel; repeat split; try assumption.
    destruct Hext as [<- | [<- | []]]; [now left | now right].
  - simpl; rewrite app_nil_r, in_app_iff, !exists_true_present.
    destruct (is_present w (PurePath.joinpath r "wrangler.toml")) eqn:Ew;
      destruct (is_present w (PurePath.joinpath r "vitest.config.ts"))
        eqn:Ev; simpl; intuition (subst; auto; congruence).
  - intros (d & rel & Hs & Hu & -> & He & Hskip).
    rewrite (scan_guard w worker_dir d rel Hs Hu).
    assert (Hin : forall ext,
               PyStr.endswith
                 (PurePath.name (mkPath (anchor r) (parts worker_dir ++ rel)))
                 ext = true ->
               In (mkPath (anchor r) (parts worker_dir ++ rel))
                  (filter
                     (fun p => negb (skip && PyStr.endswith (PurePath.name p)
                                                            ".d.ts"))
                     (PathIO.glob w worker_dir ext))).
    { intros ext Hext; apply filter_In; split; [|now rewrite Hskip].
      apply glob_iff; now exists d, rel. }
    apply in_flat_map; destruct He as [He|He].
    + exists ".ts"; split; [now left | now apply Hin].
    + exists ".tsx"; split; [right; now left | now apply Hin].
  - simpl; rewrite app_nil_r, in_app_iff, !exists_true_present.
    destruct (is_present w (PurePath.joinpath r "wrangler.toml")) eqn:Ew;
      destruct (is_present w (PurePath.joinpath r "vitest.config.ts"))
        eqn:Ev; simpl; intuition (subst; auto; congruence).
Qed.

(** The result of [find_files], as a set. *)
Lemma find_files_in_iff (w : World) (r : Path) (skip : bool)
      (files : list Path) (p : Path) :
  find_files w r skip = Ok files ->
  In p files <-> In p (candidates w r skip).
Proof.
  intros Hfiles; rewrite (find_files_candidates _ _ _ _ Hfiles).
  apply sorted_in.
Qed.

(** X3: what [find_files] returns, as a set.  A path is in the result exactly
    when it is an entry somewhere below the directory [worker/src] whose name
    ends with [.ts] or [.tsx] (and, with the flag, not with [.d.ts]), or when
    it is one of the two top-level extras and exists; the flag has no say on
    the extras. *)
Theorem find_files_membership
        (w : World) (r : Path) (skip : bool) (files : list Path) (p : Path) :
  let worker_dir := PurePath.joinpath (PurePath.joinpath r "worker") "src" in
  find_files w r skip = Ok files ->
  In p files
  <-> (exists d rel,
         PathIO.stat w worker_dir = Ok d /\ under d rel
         /\ p = mkPath (anchor r) (parts worker_dir ++ rel)
         /\ (PyStr.endswith (PurePath.name p) ".ts" = true
             \/ PyStr.endswith (PurePath.name p) ".tsx" = true)
         /\ skip && PyStr.endswith (PurePath.name p) ".d.ts" = false)
      \/ ((p = PurePath.joinpath r "wrangler.toml"
           \/ p = PurePath.joinpath r "vitest.config.ts")
          /\ PathIO.exists_ w p = Ok true).
Proof.
  intros worker_dir Hfiles.
  rewrite (find_files_in_iff w r skip files p Hfiles).
  exact (candidates_in_iff w r skip p).
Qed.






(** ** Well-formed trees *)

Lemma find_entry_in (nm : string) (es : list (string * node)) (c : node) :
  FS.find_entry nm es = Some c -> In (nm, c) es.
Proof.
  induction es as [|[k d] es IH]; simpl; [discriminate|].
  destruct (String.eqb_spec k nm) as [->|_].
  - intros [= ->]; now left.
  - intros H; right; now apply IH.
Qed.

Lemma lookup_wf (names : list string) :
  forall n m, wf_node n -> FS.lookup n names = Some m -> wf_node m.
Proof.
  induction names as [|x names IH]; intros n m Hwf; simpl.
  - now intros [= <-].
  - destruct n as [data|es]; [discriminate|].
    destruct (FS.find_entry x es) as [c|] eqn:E; [|discriminate].
    apply IH; inversion_clear Hwf as [|? _ _ Hsub].
    apply (Hsub x c); now apply find_entry_in.
Qed.

(** ** No path twice *)

Lemma endswith_ts_not_tsx (s : string) :
  PyStr.endswith s ".ts" = true -> PyStr.endswith s ".tsx" = true -> False.
Proof.
  intros Ha Hb; apply endswith_iff in Ha as [a Ha], Hb as [b Hb].
  assert (Hlen : String.length a + 2 = String.length b + 3).
  { apply (f_equal String.length) in Ha, Hb.
    rewrite length_app in Ha, Hb; simpl in Ha, Hb; lia. }
  pose proof (drop_app a ".ts" 2) as Da; pose proof (drop_app b ".tsx" 3) as Db.
  rewrite <- Ha, Hlen in Da; rewrite <- Hb, Da in Db; discriminate.
Qed.

Lemma nodup_map_inj (A B : Type) (f : A -> B) (l : list A) :
  (forall x y, f x = f y -> x = y) -> NoDup l -> NoDup (map f l).
Proof.
  intros Hinj; induction 1 as [|x l Hx Hl IH]; simpl; constructor;
    [|assumption].
  intros H; apply in_map_iff in H as [y [Hy Hin]].
  apply Hinj in Hy; now subst.
Qed.

Lemma rglob_here_nodup (f : string * node -> bool) (es : list (string * node)) :
  NoDup (map fst es) -> NoDup (map (fun e => [fst e]) (filter f es)).
Proof.
  induction es as [|e es IH]; simpl; intros Hnd; [constructor|].
  inversion_clear Hnd as [|? ? Hk Hnd'].
  destruct (f e); simpl; [|now apply IH].
  constructor; [|now apply IH].
  intros H; apply in_map_iff in H as [e' [[= He'] Hin]].
  apply filter_In in Hin as [Hin _].
  apply Hk; rewrite <- He'; now apply in_map.
Qed.

Lemma rglob_deeper_nodup (ext : string) (es : list (string * node)) :
  NoDup (map fst es) ->
  (forall nm c, In (nm, c) es -> NoDup (PathIO.rglob ext c)) ->
  NoDup (flat_map (fun e => map (cons (fst e)) (PathIO.rglob ext (snd e))) es).
Proof.
  induction es as [|[k c] es IH]; simpl; intros Hnd Hsub; [constructor|].
  inversion_clear Hnd as [|? ? Hk Hnd'].
  apply NoDup_app.
  - apply nodup_map_inj; [now intros x y [= ->] | apply (Hsub k c); now left].
  - apply IH; [assumption | intros nm d Hin; apply (Hsub nm d); now right].
  - intros a Ha Hb.
    apply in_map_iff in Ha as [x [<- _]].
    apply in_flat_map in Hb as [[k' c'] [Hin Hb]]; simpl in Hb.
    apply in_map_iff in Hb as [y [[= -> _] _]].
    apply Hk; now apply (in_map fst _ (k, c')).
Qed.

Lemma rglob_nodup (ext : string) (d : node) :
  wf_node d -> NoDup (PathIO.rglob ext d).
Proof.
  induction 1 as [data | es Hnd _ _ IH]; simpl; [constructor|].
  apply NoDup_app.
  - now apply rglob_here_nodup.
  - now apply rglob_deeper_nodup.
  - intros a Ha Hb.
    apply in_map_iff in Ha as [e [<- _]].
    apply in_flat_map in Hb as [[k c] [_ Hb]]; simpl in Hb.
    apply in_map_iff in Hb as [rel [[= _ Hrel] Hin]].
    apply rglob_iff in Hin as [Hu _].
    now apply under_nonempty in Hu.
Qed.

Lemma stat_wf (w : World) (p : Path) (d : node) :
  wf_node (fs w) -> PathIO.stat w p = Ok d -> wf_node d.
Proof.
  unfold PathIO.stat; intros Hwf.
  destruct (PathIO.resolve w p) as [c|e]; simpl; [|discriminate].
  destruct (FS.lookup (fs w) c) as [n|] eqn:E; [|discriminate].
  intros [= <-]; exact (lookup_wf c _ _ Hwf E).
Qed.

Lemma glob_nodup (w : World) (wd : Path) (ext : string) :
  wf_node (fs w) -> NoDup (PathIO.glob w wd ext).
Proof.
  intros Hwf; unfold PathIO.glob.
  destruct (PathIO.stat w wd) as [d|e] eqn:E; [|constructor].
  apply nodup_map_inj; [|exact (rglob_nodup ext d (stat_wf w wd d Hwf E))].
  intros x y [= H]; now apply app_inv_head in H.
Qed.

Lemma candidates_nodup (w : World) (r : Path) (skip : bool) :
  wf_node (fs w) -> NoDup (candidates w r skip).
Proof.
  intros Hwf; unfold candidates.
  set (wd := PurePath.joinpath (PurePath.joinpath r "worker") "src").
  apply NoDup_app.
  - destruct (is_present w wd && is_present_dir w wd); [|constructor].
    simpl; rewrite app_nil_r; apply NoDup_app.
    + apply NoDup_filter, glob_nodup, Hwf.
    + apply NoDup_filter, glob_nodup, Hwf.
    + intros p Ha Hb.
      apply filter_In in Ha as [Ha _]; apply filter_In in Hb as [Hb _].
      apply glob_iff in Ha as (_ & _ & _ & _ & _ & Ha).
      apply glob_iff in Hb as (_ & _ & _ & _ & _ & Hb).
      exact (endswith_ts_not_tsx _ Ha Hb).
  - simpl; rewrite app_nil_r.
    destruct (is_present w (PurePath.joinpath r "wrangler.toml"));
      destruct (is_present w (PurePath.joinpath r "vitest.config.ts"));
      simpl; repeat constructor; simpl; try tauto.
    intros [[= H] | []]; now apply app_inv_head in H.
  - intros p Ha Hb.
    destruct (is_present w wd && is_present_dir w wd); [|contradiction].
    apply in_flat_map in Ha as [ext [_ Ha]].
    apply filter_In in Ha as [Ha _].
    apply glob_iff in Ha as (d & rel & _ & Hu & -> & _).
    apply in_flat_map in Hb as [extra [_ Hb]].
    destruct (is_present w (PurePath.joinpath r extra)); [|contradiction].
    destruct Hb as [[= Hb] | []]; unfold wd in Hb; simpl in Hb.
    rewrite <- !app_assoc in Hb; apply app_inv_head in Hb; discriminate.
Qed.

(** X6: on a well-formed tree no path occurs twice in the result of
    [find_files], although the code has no step that removes duplicates: the
    two patterns cannot match the same name, and the extras are not below
    [worker/src]. *)
Theorem find_files_no_duplicates
        (w : World) (r : Path) (skip : bool) (files : list Path) :
  wf_node (fs w) -> find_files w r skip = Ok files -> NoDup files.
Proof.
  intros Hwf Hfiles; rewrite (find_files_candidates _ _ _ _ Hfiles).
  now apply sorted_nodup, candidates_nodup.
Qed.

(** Deciding well-formedness of a concrete tree, directory by directory. *)
Ltac wf_tree :=
  lazymatch goal with
  | |- wf_node (File _) => apply wf_file
  | |- wf_node (Dir _) =>
    apply wf_dir;
    [ repeat constructor; simpl; intuition discriminate
    | intros ? ? Hin; simpl in Hin;
      repeat (destruct Hin as [Hin|Hin];
              [injection Hin as <- <-; discriminate|]);
      contradiction
    | intros ? ? Hin; simpl in Hin;
      repeat (destruct Hin as [Hin|Hin];
              [injection Hin as <- <-; wf_tree|]);
      contradiction ]
  end.

Lemma sample_tree_wf : wf_node (fs Sample.world).
Proof. unfold Sample.world, Sample.tree, Sample.src_dir; simpl; wf_tree. Qed.

Lemma find_files_no_duplicates_witness :
  wf_node (fs Sample.world)
  /\ exists files,
       find_files Sample.world Sample.proj false = Ok files
       /\ NoDup files
       /\ List.length files = 6.
Proof.
  split; [exact sample_tree_wf|].
  destruct (find_files Sample.world Sample.proj false) as [files|e] eqn:Hfiles;
    [|vm_compute in Hfiles; discriminate].
  exists files; split; [reflexivity|]; split.
  - exact (find_files_no_duplicates Sample.world Sample.proj false files
             sample_tree_wf Hfiles).
  - vm_compute in Hfiles; injection Hfiles as <-; reflexivity.
Defined.

(** ** The output file *)

Lemma write_sections_appends (place : list string) (files : list Path) :
  forall (w : World) (out : text),
    exists body, snd (fst (write_sections w place files out)) = out ++ body.
Proof.
  induction files as [|p files IH]; intros w out; cbn [write_sections].
  - exists []; now rewrite app_nil_r.
  - set (w1 := set_fs w _).
    destruct (PathIO.read_text w1 p) as [content|e].
    + destruct (display_path w1 p) as [rel|e];
        [|exists []; now rewrite app_nil_r].
      destruct (IH w1 (out ++ section p rel content)) as [body Hb].
      exists (section p rel content ++ body); now rewrite Hb, app_assoc.
    + destruct e; try (exists []; now rewrite app_nil_r).
      apply IH.
Qed.

Lemma write_markdown_fs (w : World) (files : list Path) (out_path : Path)
      (place : list string) :
  PathIO.open_w w out_path = Ok place ->
  fs (fst (write_markdown w files out_path))
  = FS.set_file place
      (Utf8.encode
         (snd (fst (write_sections
                      (set_fs w (FS.set_file place [] (fs w))) place files
                      (header w)))))
      (fs w).
Proof.
  intros Hopen; unfold write_markdown; rewrite Hopen.
  pose proof (write_sections_frame place files
                (set_fs w (FS.set_file place [] (fs w))) (header w)) as Hf.
  destruct (write_sections _ place files (header w)) as [[w2 out] e].
  cbn [fst snd set_fs fs] in Hf |- *; destruct Hf as (_ & _ & _ & _ & Hfs).
  assert (Hw2 : FS.set_file place (Utf8.encode out) (fs w2)
                = FS.set_file place (Utf8.encode out) (fs w))
    by (destruct Hfs as [-> | [bytes ->]]; now rewrite !set_file_twice).
  destruct e; cbn [fst set_fs print_stdout fs]; exact Hw2.
Qed.

(** X7: once the output path has been opened, and however the loop ends, the
    output file is a regular file that holds the UTF-8 encoding of what was
    written to the handle, which starts with the header; a path that diverges
    from the output path is left as it was. *)
Theorem output_file_after_write
        (w : World) (files : list Path) (out_path : Path) (place : list string) :
  let w1 := set_fs w (FS.set_file place [] (fs w)) in
  let out := snd (fst (write_sections w1 place files (header w))) in
  let w' := fst (write_markdown w files out_path) in
  PathIO.open_w w out_path = Ok place ->
  (exists body, out = header w ++ body)
  /\ FS.lookup (fs w') place = Some (File (Utf8.encode out))
  /\ forall common x y a b,
       x <> y -> place = common ++ x :: a ->
       FS.lookup (fs w') (common ++ y :: b)
       = FS.lookup (fs w) (common ++ y :: b).
Proof.
  intros w1 out w' Hopen; unfold w'.
  rewrite (write_markdown_fs w files out_path place Hopen); fold w1; fold out.
  split; [apply write_sections_appends|]; split.
  - now apply (open_w_readback w out_path).
  - intros common x y a b Hxy ->; now apply lookup_set_file_other.
Qed.

Lemma output_file_after_write_witness :
  let w := Sample.world in
  let files := [mkPath Relative ["vitest.config.ts"];
                mkPath Relative ["wrangler.toml"]] in
  let w' := fst (write_markdown w files Sample.out_md) in
  PathIO.open_w w Sample.out_md = Ok ["home"; "u"; "proj"; "out.md"]
  /\ snd (write_markdown w files Sample.out_md) = Some ValueError
  /\ FS.lookup (fs w') ["home"; "u"; "proj"; "out.md"]
     = Some (File (Utf8.encode (header w)))
  /\ FS.lookup (fs w') ["home"; "u"; "proj"; "wrangler.toml"]
     = FS.lookup (fs w) ["home"; "u"; "proj"; "wrangler.toml"].
Proof.
  intros w files w'.
  destruct (output_file_after_write w files Sample.out_md
              ["home"; "u"; "proj"; "out.md"] eq_refl) as (_ & Hfile & Hrest).
  split; [reflexivity|]; split; [reflexivity|]; split.
  - exact Hfile.
  - apply (Hrest ["home"; "u"; "proj"] "out.md" "wrangler.toml" [] []);
      [discriminate | reflexivity].
Defined.

(** ** How a run ends *)

Lemma write_sections_app (place : list string) (l1 l2 : list Path) :
  forall (w : World) (out : text),
    write_sections w place (l1 ++ l2) out
    = match write_sections w place l1 out with
      | (w', out', None) => write_sections w' place l2 out'
      | stopped => stopped
      end.
Proof.
  induction l1 as [|p l1 IH]; intros w out; [reflexivity|].
  cbn [app write_sections].
  set (w1 := set_fs w _).
  destruct (PathIO.read_text w1 p) as [content|e].
  - destruct (display_path w1 p) as [rel|e]; [apply IH | reflexivity].
  - destruct e; try reflexivity; apply IH.
Qed.

(** X8: an exception other than [UnicodeDecodeError] ends the run at the file
    that raises it: a directory among the files, or a file whose display path
    cannot be computed.  When the files before it are files other than the
    output file that can be read and shown or fail to decode, they have been
    handled as usual (sections written, undecodable ones warned about), the
    files after it are not touched, the output file keeps what was written so
    far, the exception leaves [write_markdown], and no completion message is
    printed. *)
Theorem uncaught_error_stops_the_run
        (w : World) (before after : list Path) (p out_path : Path)
        (place : list string) (e : exn) :
  PathIO.open_w w out_path = Ok place ->
  (forall q, In q before -> PathIO.resolve w q <> Ok place) ->
  (forall q, In q before ->
             decode_fails w q = true
             \/ exists content rel,
                  PathIO.read_text w q = Ok content
                  /\ display_path w q = Ok rel) ->
  ((exists es, PathIO.stat w p = Ok (Dir es)) /\ e = IsADirectoryError)
  \/ (PathIO.resolve w p <> Ok place
      /\ exists content,
           PathIO.read_text w p = Ok content /\ display_path w p = Raise e) ->
  write_markdown w (before ++ p :: after) out_path
  = (mkWorld
       (FS.set_file place
          (Utf8.encode
             (header w
              ++ flat_map (expected_section w)
                   (filter (fun q => negb (decode_fails w q)) before)))
          (fs w))
       (cwd w) (utcnow w) (stdout w)
       (stderr w ++ map warning (filter (decode_fails w) before))
       (flushed w),
     Some e).
Proof.
  intros Hopen Hother Hok Hp; unfold write_markdown; rewrite Hopen.
  unfold set_fs at 1.
  rewrite write_sections_app.
  destruct (write_sections_best_effort w out_path place before Hopen Hother Hok
              [] (stderr w) (header w)) as [bytes' ->].
  cbn [write_sections].
  set (errs := stderr w ++ _).
  set (out := header w ++ _).
  set (w0 := mkWorld (FS.set_file place bytes' (fs w)) _ _ _ _ _).
  set (now_there := on_disk w0 out).
  set (w1 := mkWorld (FS.set_file place now_there (fs w)) (cwd w) (utcnow w)
                     (stdout w) errs (flushed w)).
  replace (set_fs w0 (FS.set_file place now_there (fs w0))) with w1
    by (unfold w1, w0, set_fs; cbn [fs cwd utcnow stdout stderr flushed];
        now rewrite set_file_twice).
  destruct Hp as [[[es Hdir] ->] | [Hnot [content [Hr Hrel]]]].
  - destruct (stat_dir_kept w w1 out_path p place now_there es
                Hopen eq_refl eq_refl Hdir) as [es' Hdir'].
    unfold PathIO.read_text at 1; rewrite Hdir'; cbn [bind].
    unfold w1, set_fs; cbn [fs cwd utcnow stdout stderr flushed].
    now rewrite set_file_twice.
  - destruct (read_text_file w p content Hr) as [data Hstat].
    destruct (reads_kept w w1 out_path p place now_there data
                Hopen eq_refl eq_refl Hstat Hnot) as [-> ->].
    rewrite Hr, Hrel.
    unfold w1, set_fs; cbn [fs cwd utcnow stdout stderr flushed].
    now rewrite set_file_twice.
Qed.

Lemma uncaught_error_stops_the_run_witness :
  let w := Edge.world in
  let out_path := mkPath Relative ["out.md"] in
  let before := [Edge.in_src ".ts"; Edge.in_src "a.ts"; Edge.in_src "A.ts"] in
  let files := before ++ Edge.in_src "gen.ts" :: [Edge.in_src "z.ts"] in
  let w' := fst (write_markdown w files out_path) in
  find_files w Edge.repo true = Ok files
  /\ PathIO.open_w w out_path = Ok ["repo"; "out.md"]
  /\ PathIO.read_text w (Edge.in_src "gen.ts") = Raise IsADirectoryError
  /\ snd (write_markdown w files out_path) = Some IsADirectoryError
  /\ stdout w' = []
  /\ FS.lookup (fs w') ["repo"; "out.md"]
     = Some (File (Utf8.encode (header w ++ flat_map (expected_section w) before))).
Proof.
  intros w out_path before files w'.
  assert (Hopen : PathIO.open_w w out_path = Ok ["repo"; "out.md"])
    by (vm_compute; reflexivity).
  assert (Hother : forall q, In q before ->
                     PathIO.resolve w q <> Ok ["repo"; "out.md"]).
  { intros q Hin; simpl in Hin.
    destruct Hin as [<- | [<- | [<- | []]]]; vm_compute; discriminate. }
  assert (Hbefore : forall q, In q before ->
            decode_fails w q = true
            \/ exists content rel,
                 PathIO.read_text w q = Ok content
                 /\ display_path w q = Ok rel).
  { intros q Hin; simpl in Hin; right.
    destruct Hin as [<- | [<- | [<- | []]]];
      eexists; eexists; split; vm_compute; reflexivity. }
  assert (Hp : ((exists es, PathIO.stat w (Edge.in_src "gen.ts") = Ok (Dir es))
                /\ IsADirectoryError = IsADirectoryError)
               \/ (PathIO.resolve w (Edge.in_src "gen.ts")
                   <> Ok ["repo"; "out.md"]
                   /\ exists content,
                        PathIO.read_text w (Edge.in_src "gen.ts") = Ok content
                        /\ display_path w (Edge.in_src "gen.ts")
                           = Raise IsADirectoryError)).
  { left; split; [|reflexivity]; eexists; vm_compute; reflexivity. }
  pose proof (uncaught_error_stops_the_run w before [Edge.in_src "z.ts"]
                (Edge.in_src "gen.ts") out_path ["repo"; "out.md"]
                IsADirectoryError Hopen Hother Hbefore Hp) as Hrun.
  split; [vm_compute; reflexivity|]; split; [exact Hopen|].
  split; [vm_compute; reflexivity|].
  unfold w', files; rewrite Hrun; cbn [fst snd fs stdout].
  split; [reflexivity|]; split; [reflexivity|].
  exact (open_w_readback w out_path ["repo"; "out.md"] _ Hopen).
Defined.


(** ** More on the language classifier *)

Lemma rfind_from_absent (c : ascii) (s : string) :
  ~ In c (list_ascii_of_string s) ->
  forall i last, PyStr.rfind_from c s i last = last.
Proof.
  induction s as [|a s IH]; intros Hno i last; simpl; [reflexivity|].
  simpl in Hno.
  destruct (Ascii.eqb_spec a c) as [->|_]; [exfalso; apply Hno; now left|].
  apply IH; intros H; apply Hno; now right.
Qed.

(** The suffix of [stem.e], for a stem and an extension that are not empty
    and an extension without a dot. *)
Lemma suffix_of_stem_dot_ext (p : Path) (stem e : string) :
  PurePath.name p = (stem ++ "." ++ e)%string ->
  stem <> "" -> e <> "" ->
  ~ In "."%char (list_ascii_of_string e) ->
  PurePath.suffix p = ("." ++ e)%string.
Proof.
  intros Hname Hstem He Hno; unfold PurePath.suffix, PyStr.rfind.
  rewrite Hname, rfind_from_app, !length_app; simpl.
  rewrite (rfind_from_absent _ _ Hno).
  assert (0 < String.length stem) by (destruct stem; simpl; [congruence | lia]).
  assert (0 < String.length e) by (destruct e; simpl; [congruence | lia]).
  match goal with
  | |- context [if ?b then _ else _] =>
    replace b with true by (symmetry; apply andb_true_iff; split;
                            apply Z.ltb_lt; lia)
  end.
  unfold PyStr.slice_from.
  rewrite ?Z.add_0_l, Nat2Z.id, <- (Nat.add_0_r (String.length stem)).
  now rewrite drop_app.
Qed.

(** X10: the plain extension decides, whatever its letter case.  For a name
    [stem.e] with a stem that is not empty and an extension [e] without a
    dot, the tag is ["toml"] when [e] lower-cased is ["toml"], ["ts"] when
    it is ["ts"] or ["tsx"], and ["text"] otherwise. *)
Theorem extension_decides_language (p : Path) (stem e : string) :
  PurePath.name p = (stem ++ "." ++ e)%string ->
  stem <> "" -> e <> "" ->
  ~ In "."%char (list_ascii_of_string e) ->
  file_language_for p
  = if String.eqb (PyStr.lower e) "toml" then "toml"
    else if String.eqb (PyStr.lower e) "ts" || String.eqb (PyStr.lower e) "tsx"
         then "ts"
         else "text".
Proof.
  intros Hname Hstem He Hno; unfold file_language_for.
  rewrite (suffix_of_stem_dot_ext p stem e Hname Hstem He Hno).
  reflexivity.
Qed.

Lemma extension_decides_language_witness :
  let p := mkPath Relative ["src"; "App.v2.TsX"] in
  PurePath.name p = ("App.v2" ++ "." ++ "TsX")%string
  /\ file_language_for p = "ts".
Proof.
  intros p; split; [reflexivity|].
  rewrite (extension_decides_language p "App.v2" "TsX" eq_refl);
    [reflexivity | discriminate | discriminate |].
  simpl; intuition discriminate.
Defined.

(** X11: names that have no extension for [pathlib] are tagged ["text"]: a
    name without a dot, a name whose only dot is its first character (a
    hidden file such as [.ts], which the pattern [*.ts] does match), and a
    name that ends with a dot. *)
Theorem names_without_suffix_are_text (p : Path) (e s : string) :
  ~ In "."%char (list_ascii_of_string e) ->
  PurePath.name p = e
  \/ PurePath.name p = ("." ++ e)%string
  \/ PurePath.name p = (s ++ ".")%string ->
  file_language_for p = "text".
Proof.
  intros Hno Hname.
  assert (Hs : PurePath.suffix p = "").
  { unfold PurePath.suffix, PyStr.rfind.
    destruct Hname as [-> | [-> | ->]].
    - now rewrite (rfind_from_absent _ _ Hno).
    - simpl; now rewrite (rfind_from_absent _ _ Hno).
    - rewrite rfind_from_app, length_app; simpl.
      match goal with
      | |- context [if ?b then _ else _] =>
        replace b with false; [reflexivity|]
      end.
      symmetry; apply andb_false_iff; right; apply Z.ltb_ge; lia. }
  unfold file_language_for; now rewrite Hs.
Qed.

Lemma names_without_suffix_are_text_witness :
  let hidden := Edge.in_src ".ts" in
  PurePath.name hidden = ("." ++ "ts")%string
  /\ PyStr.endswith (PurePath.name hidden) ".ts" = true
  /\ (exists files,
        find_files Edge.world Edge.repo true = Ok files /\ In hidden files)
  /\ file_language_for hidden = "text".
Proof.
  intros hidden.
  split; [reflexivity|]; split; [reflexivity|]; split.
  - eexists; split; [vm_compute; reflexivity | simpl; auto].
  - apply (names_without_suffix_are_text hidden "ts" "");
      [simpl; intuition discriminate | right; left; reflexivity].
Defined.

(** ** Blank files *)

Lemma dropwhile_all (f : N -> bool) (t : text) :
  forallb f t = true -> PyText.dropwhile f t = [].
Proof.
  induction t as [|c t IH]; simpl; [reflexivity|].
  destruct (f c); [exact IH | discriminate].
Qed.

(** X12: a file that decodes to white space only, the empty file included,
    gets a section whose fenced block holds a single newline: all of its
    content is trimmed away.  The content is what the iteration reads, in
    the world [w1] of that point. *)
Theorem blank_content_gives_empty_block
        (w : World) (place : list string) (path rel : Path)
        (content out : text) :
  let w1 := set_fs w (FS.set_file place (on_disk w out) (fs w)) in
  PathIO.read_text w1 path = Ok content ->
  display_path w1 path = Ok rel ->
  forallb PyText.isspace content = true ->
  fenced_body content = PyText.of_string nl
  /\ exists before,
       write_sections w place [path] out
       = (w1,
          out ++ before
          ++ PyText.of_string ("```" ++ file_language_for path ++ nl)
          ++ PyText.of_string nl
          ++ PyText.of_string ("```" ++ nl ++ nl),
          None).
Proof.
  intros w1 Hread Hrel Hblank.
  assert (Hbody : fenced_body content = PyText.of_string nl).
  { unfold fenced_body, PyText.rstrip.
    now rewrite (dropwhile_all _ _ (forallb_rev _ _ Hblank)). }
  split; [exact Hbody|].
  exists (PyText.of_string ("---" ++ nl ++ nl)
          ++ PyText.of_string ("## `" ++ PurePath.str rel ++ "`" ++ nl ++ nl)
          ++ PyText.of_string
               ("_Size: "
                ++ PyStr.of_nat (List.length (PyText.splitlines content))
                ++ " lines_  " ++ nl ++ nl)).
  cbn [write_sections]; fold w1; rewrite Hread, Hrel; unfold section.
  rewrite Hbody; now rewrite <- !app_assoc.
Qed.

Lemma blank_content_gives_empty_block_witness :
  let w := Edge.world in
  let place := ["repo"; "out.md"] in
  let w1 := set_fs w (FS.set_file place (on_disk w (header w)) (fs w)) in
  let z := Edge.in_src "z.ts" in
  let content := PyText.of_string ("  " ++ nl) in
  PathIO.read_text w1 z = Ok content
  /\ display_path w1 z = Ok (mkPath Relative ["worker"; "src"; "z.ts"])
  /\ forallb PyText.isspace content = true
  /\ fenced_body content = PyText.of_string nl.
Proof.
  intros w place w1 z content.
  assert (Hread : PathIO.read_text w1 z = Ok content)
    by (vm_compute; reflexivity).
  assert (Hrel : display_path w1 z
                 = Ok (mkPath Relative ["worker"; "src"; "z.ts"]))
    by (vm_compute; reflexivity).
  split; [exact Hread|]; split; [exact Hrel|]; split; [reflexivity|].
  exact (proj1 (blank_content_gives_empty_block w place z _ content (header w)
                  Hread Hrel eq_refl)).
Defined.

(** ** The order of the document *)

Section SortedEnds.

Variable key : Path -> string.

Lemma sorted_head (x : Path) (l : list Path) :
  In x l ->
  (forall y, In y l -> y = x \/ String.leb (key y) (key x) = false) ->
  exists rest, sorted key l = x :: rest.
Proof.
  intros Hx Hcond.
  pose proof (sorted_strongly key l) as Hs.
  apply (sorted_in key) in Hx.
  destruct (sorted key l) as [|h rest] eqn:E; [contradiction|].
  assert (Hh : In h l) by (apply (sorted_in key); rewrite E; now left).
  destruct (Hcond h Hh) as [-> | Hlt]; [now exists rest|].
  exfalso; inversion_clear Hs as [|? ? _ Hall].
  destruct Hx as [-> | Hx]; [now rewrite leb_refl in Hlt|].
  rewrite Forall_forall in Hall; specialize (Hall x Hx).
  unfold PyStr.le in Hall; congruence.
Qed.

Lemma strongly_sorted_last (front : list Path) (h : Path) :
  StronglySorted (fun p q => PyStr.le (key p) (key q)) (front ++ [h]) ->
  forall z, In z (front ++ [h]) -> PyStr.le (key z) (key h).
Proof.
  induction front as [|a front IH]; simpl; intros Hs z Hz.
  - destruct Hz as [<- | []]; apply leb_refl.
  - inversion_clear Hs as [|? ? Hs' Hall].
    destruct Hz as [<- | Hz]; [|now apply IH].
    rewrite Forall_forall in Hall; apply Hall, in_or_app; right; now left.
Qed.

Lemma sorted_last (x : Path) (l : list Path) :
  In x l ->
  (forall y, In y l -> y = x \/ String.leb (key x) (key y) = false) ->
  exists front, sorted key l = front ++ [x].
Proof.
  intros Hx Hcond.
  pose proof (sorted_strongly key l) as Hs.
  apply (sorted_in key) in Hx.
  destruct (sorted key l) as [|a s] eqn:E; [contradiction|].
  destruct (exists_last (l := a :: s)) as [front [h Eh]]; [discriminate|].
  rewrite Eh in Hs, Hx |- *.
  assert (Hh : In h l).
  { apply (sorted_in key); rewrite E, Eh; apply in_or_app; right; now left. }
  destruct (Hcond h Hh) as [-> | Hlt]; [now exists front|].
  exfalso; pose proof (strongly_sorted_last front h Hs x Hx) as Hle.
  unfold PyStr.le in Hle; congruence.
Qed.

End SortedEnds.

Lemma join_below (ps : list string) :
  exists pre, forall qs,
    qs <> [] -> PyStr.join "/" (ps ++ qs) = (pre ++ PyStr.join "/" qs)%string.
Proof.
  induction ps as [|p ps [pre IH]].
  - exists ""; reflexivity.
  - exists (p ++ "/" ++ pre)%string; intros qs Hqs.
    specialize (IH qs Hqs); simpl; destruct (ps ++ qs) eqn:E.
    + apply app_eq_nil in E as [_ E]; contradiction.
    + now rewrite IH, !app_assoc_str.
Qed.

(** The sort key of a path below [r] is a prefix that depends on [r] only,
    followed by the lower-cased names below [r]. *)
Lemma sort_key_below (r : Path) :
  exists pre, forall qs,
    qs <> [] ->
    sort_key (mkPath (anchor r) (parts r ++ qs))
    = (pre ++ PyStr.lower (PyStr.join "/" qs))%string.
Proof.
  destruct r as [a ps]; destruct (join_below ps) as [pre Hpre].
  unfold sort_key, PurePath.str; simpl; destruct a.
  - exists (PyStr.lower pre); intros qs Hqs.
    rewrite <- lower_append, <- (Hpre qs Hqs).
    destruct (ps ++ qs) eqn:E; [|reflexivity].
    apply app_eq_nil in E as [_ E]; contradiction.
  - exists (PyStr.lower ("/" ++ pre)); intros qs Hqs.
    rewrite (Hpre qs Hqs), <- lower_append; reflexivity.
  - exists (PyStr.lower ("//" ++ pre)); intros qs Hqs.
    rewrite (Hpre qs Hqs), <- lower_append; reflexivity.
Qed.

Lemma candidates_shape (w : World) (r : Path) (skip : bool) (p : Path) :
  In p (candidates w r skip) ->
  (exists rel, rel <> []
               /\ p = mkPath (anchor r) (parts r ++ "worker" :: "src" :: rel))
  \/ p = mkPath (anchor r) (parts r ++ ["wrangler.toml"])
  \/ p = mkPath (anchor r) (parts r ++ ["vitest.config.ts"]).
Proof.
  intros H; apply candidates_in_iff in H
    as [(d & rel & _ & Hu & -> & _) | [[-> | ->] _]].
  - left; exists rel; split; [exact (under_nonempty _ _ Hu)|].
    simpl; now rewrite <- !app_assoc.
  - right; now left.
  - right; now right.
Qed.

(** Where the extras stand among the sorted candidates. *)
Lemma extras_at_the_ends (w : World) (r : Path) (skip : bool) :
  (PathIO.exists_ w (PurePath.joinpath r "vitest.config.ts") = Ok true ->
   exists rest,
     sorted sort_key (candidates w r skip)
     = PurePath.joinpath r "vitest.config.ts" :: rest)
  /\ (PathIO.exists_ w (PurePath.joinpath r "wrangler.toml") = Ok true ->
      exists front,
        sorted sort_key (candidates w r skip)
        = front ++ [PurePath.joinpath r "wrangler.toml"]).
Proof.
  destruct (sort_key_below r) as [pre Hkey].
  assert (Hin : forall nm,
             In nm ["wrangler.toml"; "vitest.config.ts"] ->
             PathIO.exists_ w (PurePath.joinpath r nm) = Ok true ->
             In (PurePath.joinpath r nm) (candidates w r skip)).
  { intros nm Hnm Hex; apply candidates_in_iff; right.
    split; [|exact Hex].
    destruct Hnm as [<- | [<- | []]]; [now left | now right]. }
  split; intros Hex.
  - apply sorted_head; [apply Hin; [right; now left | exact Hex]|].
    intros y Hy; apply candidates_shape in Hy as [(rel & Hrel & ->) | [-> | ->]];
      unfold PurePath.joinpath; rewrite !Hkey by discriminate;
      rewrite leb_common_prefix; [right | right | left]; reflexivity.
  - apply sorted_last; [apply Hin; [now left | exact Hex]|].
    intros y Hy; apply candidates_shape in Hy as [(rel & Hrel & ->) | [-> | ->]];
      unfold PurePath.joinpath; rewrite !Hkey by discriminate;
      rewrite leb_common_prefix; [right | left | right]; reflexivity.
Qed.

(** X13: the configuration files frame the sources.  When
    [vitest.config.ts] exists under the root it is the first path of the
    result, and when [wrangler.toml] exists it is the last one; everything
    found below [worker/src] lies in between. *)
Theorem extras_frame_the_sources
        (w : World) (r : Path) (skip : bool) (files : list Path) :
  find_files w r skip = Ok files ->
  (PathIO.exists_ w (PurePath.joinpath r "vitest.config.ts") = Ok true ->
   exists rest, files = PurePath.joinpath r "vitest.config.ts" :: rest)
  /\ (PathIO.exists_ w (PurePath.joinpath r "wrangler.toml") = Ok true ->
      exists front, files = front ++ [PurePath.joinpath r "wrangler.toml"]).
Proof.
  intros Hfiles; rewrite (find_files_candidates _ _ _ _ Hfiles).
  apply extras_at_the_ends.
Qed.

Lemma extras_frame_the_sources_witness :
  let vitest := PurePath.joinpath Sample.proj "vitest.config.ts" in
  let wrangler := PurePath.joinpath Sample.proj "wrangler.toml" in
  PathIO.exists_ Sample.world vitest = Ok true
  /\ PathIO.exists_ Sample.world wrangler = Ok true
  /\ exists files,
       find_files Sample.world Sample.proj false = Ok files
       /\ (exists rest, files = vitest :: rest)
       /\ (exists front, files = front ++ [wrangler]).
Proof.
  intros vitest wrangler.
  destruct (find_files Sample.world Sample.proj false) as [files|e] eqn:Hfiles;
    [|vm_compute in Hfiles; discriminate].
  destruct (extras_frame_the_sources Sample.world Sample.proj false files
              Hfiles) as [Hfirst Hlast].
  split; [reflexivity|]; split; [reflexivity|].
  exists files; split; [reflexivity|]; split.
  - exact (Hfirst eq_refl).
  - exact (Hlast eq_refl).
Defined.

(** ** A [worker/src] that is not a directory *)

(** X14: when [worker/src] exists under the root but is not a directory (a
    regular file has that name), nothing is scanned: [find_files] does what
    the checks of the two extras do, returning the extras that exist or
    raising what a check raises. *)
Theorem worker_src_not_a_directory (w : World) (r : Path) (skip : bool) :
  PathIO.is_dir w (PurePath.joinpath (PurePath.joinpath r "worker") "src")
  = Ok false ->
  find_files w r skip = existing_extras w r.
Proof. exact (find_files_no_scan w r skip). Qed.

Lemma worker_src_not_a_directory_witness :
  let wd := PurePath.joinpath (PurePath.joinpath Edge.flat "worker") "src" in
  PathIO.exists_ Edge.world wd = Ok true
  /\ PathIO.is_dir Edge.world wd = Ok false
  /\ existing_extras Edge.world Edge.flat
     = Ok [mkPath Root ["flat"; "wrangler.toml"]]
  /\ find_files Edge.world Edge.flat true
     = Ok [mkPath Root ["flat"; "wrangler.toml"]].
Proof.
  intros wd; split; [reflexivity|]; split; [reflexivity|].
  split; [reflexivity|].
  now rewrite (worker_src_not_a_directory Edge.world Edge.flat true eq_refl).
Defined.

(** ** A whole run *)



(** X16: an output path that names an existing directory cannot be opened.
    [main] ends with [IsADirectoryError] before any file is read, and the
    world is left as it was: nothing printed, nothing written. *)
Theorem output_is_a_directory
        (w : World) (args : Namespace) (files : list Path) :
  PathIO.is_dir w (output args) = Ok true ->
  find_files w (root args) (skip_dot_types args) = Ok files ->
  files <> [] ->
  main w args = (w, Raise IsADirectoryError).
Proof.
  intros Hdir Hfiles Hne; unfold main; rewrite Hfiles.
  destruct files as [|p files]; [contradiction|].
  unfold write_markdown, PathIO.open_w.
  unfold PathIO.is_dir, PathIO.stat in Hdir.
  destruct (PathIO.resolve w (output args)) as [c|e]; simpl in Hdir |- *;
    [|destruct (PathIO.ignore_error e); discriminate].
  destruct (FS.lookup (fs w) c) as [[y|es]|]; try discriminate; reflexivity.
Qed.

Lemma output_is_a_directory_witness :
  let args := mkNamespace Sample.proj (mkPath Relative ["worker"]) true in
  PathIO.is_dir Sample.world (output args) = Ok true
  /\ (exists files,
        find_files Sample.world (root args) (skip_dot_types args) = Ok files
        /\ files <> [])
  /\ main Sample.world args = (Sample.world, Raise IsADirectoryError).
Proof.
  intros args.
  destruct (find_files Sample.world (root args) (skip_dot_types args))
    as [files|e] eqn:Hfiles; [|vm_compute in Hfiles; discriminate].
  assert (Hne : files <> [])
    by (vm_compute in Hfiles; injection Hfiles as <-; discriminate).
  split; [reflexivity|]; split; [now exists files|].
  exact (output_is_a_directory Sample.world args files eq_refl Hfiles Hne).
Defined.

(** X17: the order of the result is global, not only between neighbours: of
    any two paths in the result, the one that comes first has the smaller or
    equal lower-cased string. *)
Theorem find_files_globally_ordered
        (w : World) (r : Path) (skip : bool) (front back : list Path)
        (p q : Path) :
  find_files w r skip = Ok (front ++ p :: back) ->
  In q back ->
  String.leb (PyStr.lower (PurePath.str p)) (PyStr.lower (PurePath.str q))
  = true.
Proof.
  intros Hsplit Hq.
  pose proof (sorted_strongly sort_key (candidates w r skip)) as Hs.
  rewrite <- (find_files_candidates _ _ _ _ Hsplit) in Hs.
  clear Hsplit; induction front as [|a front IH]; simpl in Hs.
  - inversion_clear Hs as [|? ? _ Hall].
    rewrite Forall_forall in Hall; exact (Hall q Hq).
  - inversion_clear Hs as [|? ? Hs' _]; exact (IH Hs').
Qed.

Lemma find_files_globally_ordered_witness :
  let vitest := mkPath Root ["home"; "u"; "proj"; "vitest.config.ts"] in
  let wrangler := mkPath Root ["home"; "u"; "proj"; "wrangler.toml"] in
  let sources :=
    [mkPath Root ["home"; "u"; "proj"; "worker"; "src"; "index.ts"];
     mkPath Root ["home"; "u"; "proj"; "worker"; "src"; "lib"; "Util.tsx"];
     mkPath Root ["home"; "u"; "proj"; "worker"; "src"; "logo.ts"]] in
  find_files Sample.world Sample.proj true
  = Ok ([] ++ vitest :: (sources ++ [wrangler]))
  /\ In wrangler (sources ++ [wrangler])
  /\ String.leb (PyStr.lower (PurePath.str vitest))
                (PyStr.lower (PurePath.str wrangler)) = true.
Proof.
  intros vitest wrangler sources.
  assert (Hsplit : find_files Sample.world Sample.proj true
                   = Ok ([] ++ vitest :: (sources ++ [wrangler])))
    by (vm_compute; reflexivity).
  assert (Hin : In wrangler (sources ++ [wrangler]))
    by (simpl; auto).
  split; [exact Hsplit|]; split; [exact Hin|].
  exact (find_files_globally_ordered Sample.world Sample.proj true []
           (sources ++ [wrangler]) vitest wrangler Hsplit Hin).
Defined.

(** ** The locator on the samples *)

Lemma skip_flag_only_drops_declaration_files_witness :
  (exists files,
     find_files Sample.world Sample.proj false = Ok files
     /\ map PurePath.name files
        = ["vitest.config.ts"; "env.d.ts"; "index.ts"; "Util.tsx"; "logo.ts";
           "wrangler.toml"]
     /\ find_files Sample.world Sample.proj true
        = Ok (filter (fun p => negb (PyStr.endswith (PurePath.name p) ".d.ts"))
                     files))
  /\ find_files Sample.world (mkPath Relative [Sample.long_name]) false
     = Raise OSError
  /\ find_files Sample.world (mkPath Relative [Sample.long_name]) true
     = Raise OSError.
Proof.
  pose proof (skip_flag_only_drops_declaration_files Sample.world Sample.proj)
    as Hproj.
  pose proof (skip_flag_only_drops_declaration_files Sample.world
                (mkPath Relative [Sample.long_name])) as Hlong.
  split.
  - destruct (find_files Sample.world Sample.proj false) as [files|e] eqn:E;
      [|vm_compute in E; discriminate].
    exists files; split; [reflexivity|]; split; [|exact Hproj].
    vm_compute in E; injection E as <-; reflexivity.
  - assert (E : find_files Sample.world (mkPath Relative [Sample.long_name])
                           false = Raise OSError) by (vm_compute; reflexivity).
    split; [exact E|]; now rewrite Hlong, E.
Defined.

Lemma find_files_keeps_scan_order_of_ties_witness :
  let k := "/repo/worker/src/a.ts" in
  map PurePath.name (candidates Edge.world Edge.repo true)
  = ["a.ts"; "A.ts"; ".ts"; "gen.ts"; "z.ts"]
  /\ exists files,
       find_files Edge.world Edge.repo true = Ok files
       /\ filter (fun p => String.eqb (sort_key p) k) files
          = [Edge.in_src "a.ts"; Edge.in_src "A.ts"].
Proof.
  intros k; split; [reflexivity|].
  destruct (find_files Edge.world Edge.repo true) as [files|e] eqn:Hfiles;
    [|vm_compute in Hfiles; discriminate].
  exists files; split; [reflexivity|].
  now rewrite (find_files_keeps_scan_order_of_ties Edge.world Edge.repo true
                 files k Hfiles).
Defined.

Lemma find_files_membership_witness :
  PathIO.exists_ Sample.world (PurePath.joinpath Sample.proj "wrangler.toml")
  = Ok true
  /\ exists files,
       find_files Sample.world Sample.proj true = Ok files
       /\ In (PurePath.joinpath Sample.proj "wrangler.toml") files.
Proof.
  split; [reflexivity|].
  destruct (find_files Sample.world Sample.proj true) as [files|e] eqn:Hfiles;
    [|vm_compute in Hfiles; discriminate].
  exists files; split; [reflexivity|].
  apply (find_files_membership Sample.world Sample.proj true files _ Hfiles).
  right; split; [now left | reflexivity].
Defined.

(** ** Errors of the locator *)




